(** * people-counter-server: the stream layer (stream.h) and the request
      handler (main.cpp), embedded in Rocq.

    Part I holds the definitions, translated from the C++ sources; Part II
    holds the lemmas and the theorems about them. *)

From Stdlib Require Import Bool Arith NArith ZArith List Ascii String Lia.
From Stdlib Require Import DecimalString.
Import ListNotations.

Open Scope string_scope.
Open Scope list_scope.

(* ================================================================== *)
(** * Part I: definitions *)
(* ================================================================== *)

(** ** [std::string] operations used by the sources *)

(** The line terminator, ['\n']. *)
Definition LF : ascii := "010"%char.
Definition SP : ascii := " "%char.

(** [s.find_first_of(c, pos)]: index of the first occurrence of [c] at or after
    [pos]; [None] is [string::npos]. *)
Fixpoint find_first_of (s : string) (c : ascii) (pos : nat) : option nat :=
  match s with
  | EmptyString => None
  | String a s' =>
      match pos with
      | O => if Ascii.eqb a c then Some O
             else option_map S (find_first_of s' c O)
      | S p => option_map S (find_first_of s' c p)
      end
  end.

(** [s.substr(pos, n)], for [pos <= s.size()] (every call of the sources is in
    that range, where the C++ function does not raise). *)
Definition substr (s : string) (pos n : nat) : string := substring pos n s.

(** [s.substr(pos)]: the suffix from [pos] on. *)
Fixpoint substr_from (s : string) (pos : nat) {struct pos} : string :=
  match pos with
  | O => s
  | S p =>
      match s with
      | String _ s' => substr_from s' p
      | EmptyString => EmptyString
      end
  end.

(** ** Exceptions (stream.h, lines 33-86) *)

(** The classes thrown in the sources.  [IOException] and the four classes
    derived from it are declared in stream.h; [std_exception] stands for every
    other [std::exception] (a plain [runtime_error], what the big-integer
    library raises), carrying its [what()]. *)
Inductive exn : Type :=
| IOException (msg : string)
| EOFException
| NoStreamsLeftException
| UTFDataFormatException
| InvalidDataValueException (msg : string)
| std_exception (msg : string).

(** [e.what()]. *)
Definition what (e : exn) : string :=
  match e with
  | IOException msg => msg
  | EOFException => "IO Error : reached end of file"
  | NoStreamsLeftException => "IO Error : no streams left"
  | UTFDataFormatException => "IO Error : invalid UTF data"
  | InvalidDataValueException msg => msg
  | std_exception msg => msg
  end.

(** Whether a handler [catch(EOFException &)] takes the exception. *)
Definition isEOFException (e : exn) : bool :=
  match e with EOFException => true | _ => false end.

(** Whether a handler [catch(IOException &)] takes the exception: the class
    itself and the classes derived from it. *)
Definition isIOException (e : exn) : bool :=
  match e with std_exception _ => false | _ => true end.

(** A call returns a value or raises. *)
Inductive result (A : Type) : Type :=
| Ok (a : A)
| Throw (e : exn).
Arguments Ok {A} a.
Arguments Throw {A} e.

(** ** Byte readers and writers (stream.h, lines 88-218) *)

(** [class Reader]: [readByte] and the virtual destructor. *)
Class Reader (R : Type) : Type := {
  readByte : R -> result ascii * R;
  destroyReader : R -> R
}.

(** [class Writer]: [writeByte], [flush] and the virtual destructor. *)
Class Writer (W : Type) : Type := {
  writeByte : W -> ascii -> result unit * W;
  flush : W -> result unit * W;
  destroyWriter : W -> W
}.

(** A C [FILE *], as far as [fgetc], [fputc], [fflush], [ferror] and [fclose]
    show it: the bytes still to be read, the bytes written so far, whether the
    device fails on the next transfer, and whether the handle was closed. *)
Record FILE : Type := {
  f_input : list ascii;
  f_output : list ascii;
  f_broken : bool;
  f_closed : bool
}.

Definition fclose (f : FILE) : FILE :=
  {| f_input := f_input f; f_output := f_output f;
     f_broken := f_broken f; f_closed := true |}.

(** [FileReader::readByte]: [fgetc]; on [EOF], [IOException] when [ferror]
    is set and [EOFException] otherwise. *)
Definition FileReader_readByte (f : FILE) : result ascii * FILE :=
  if f_broken f then (Throw (IOException "IO Error : can't read from file"), f)
  else
    match f_input f with
    | [] => (Throw EOFException, f)
    | ch :: rest =>
        (Ok ch, {| f_input := rest; f_output := f_output f;
                   f_broken := f_broken f; f_closed := f_closed f |})
    end.

(** [FileReader]; its destructor calls [fclose]. *)
#[export] Instance FileReader : Reader FILE := {
  readByte := FileReader_readByte;
  destroyReader := fclose
}.

(** [FileWriter::writeByte]: [fputc], [IOException] on [EOF]. *)
Definition FileWriter_writeByte (f : FILE) (v : ascii) : result unit * FILE :=
  if f_broken f then (Throw (IOException "IO Error : can't write to file"), f)
  else (Ok tt, {| f_input := f_input f; f_output := f_output f ++ [v];
                  f_broken := f_broken f; f_closed := f_closed f |}).

(** [FileWriter::flush]: [fflush], [IOException] on [EOF]. *)
Definition FileWriter_flush (f : FILE) : result unit * FILE :=
  if f_broken f then (Throw (IOException "IO Error : can't write to file"), f)
  else (Ok tt, f).

(** [FileWriter]; its destructor calls [fclose]. *)
#[export] Instance FileWriter : Writer FILE := {
  writeByte := FileWriter_writeByte;
  flush := FileWriter_flush;
  destroyWriter := fclose
}.

(** [MemoryReader]: the fields [mem], [offset] and [length] (the length is
    the one given to the constructor, which the caller keeps within the
    buffer). *)
Record MemoryReader : Type := {
  m_mem : list ascii;
  m_offset : nat;
  m_length : nat
}.

(** [MemoryReader::readByte]. *)
Definition MemoryReader_readByte (r : MemoryReader) : result ascii * MemoryReader :=
  if (m_length r <=? m_offset r)%nat then (Throw EOFException, r)
  else (Ok (nth (m_offset r) (m_mem r) zero),
        {| m_mem := m_mem r; m_offset := S (m_offset r); m_length := m_length r |}).

#[export] Instance MemoryReader_Reader : Reader MemoryReader := {
  readByte := MemoryReader_readByte;
  destroyReader := fun r => r
}.

(** ** [shared_ptr] ownership *)

(** An object held through [shared_ptr], seen from one owner (the adapter
    below): its state, the number of other [shared_ptr] owners, and whether it
    was destroyed. *)
Record shared (T : Type) : Type := {
  target : T;
  other_owners : nat;
  destroyed : bool
}.
Arguments target {T} s.
Arguments other_owners {T} s.
Arguments destroyed {T} s.

Definition with_target {T : Type} (s : shared T) (x : T) : shared T :=
  {| target := x; other_owners := other_owners s; destroyed := destroyed s |}.

(** This owner's pointer is reset ([p = nullptr]): the object is destroyed,
    through [destroy], exactly when no other owner is left. *)
Definition release {T : Type} (destroy : T -> T) (s : shared T) : shared T :=
  match other_owners s with
  | O => {| target := destroy (target s); other_owners := O; destroyed := true |}
  | S _ => s
  end.

(** ** Channel sources (stream.h, lines 332-367) *)

Section StreamServers.
(** [shared_ptr<StreamRW>]: a channel, identified by the pointer. *)
Variable StreamRW : Type.
(** Any other implementation of [struct StreamServer] (the socket listener),
    with its [accept]. *)
Variable Listener : Type.
Variable Listener_accept : Listener -> result StreamRW * Listener.

(** [struct StreamServer] with its implementations: [StreamServerWrapper]
    holds the list [streams] and the pointer [nextServer] ([None] is
    [nullptr]). *)
#[warnings="-register-all"] Inductive StreamServer : Type :=
| StreamServerWrapper (streams : list StreamRW) (nextServer : option StreamServer)
| OtherServer (l : Listener).

(** [accept()], with the state the call leaves.  For the wrapper: an empty
    list raises [NoStreamsLeftException] without a next server and calls the
    next server's [accept] with one; otherwise the front of the list is
    popped and returned. *)
Fixpoint accept (s : StreamServer) : result StreamRW * StreamServer :=
  match s with
  | StreamServerWrapper streams nextServer =>
      match streams with
      | [] =>
          match nextServer with
          | None => (Throw NoStreamsLeftException, s)
          | Some next =>
              let (r, next') := accept next in
              (r, StreamServerWrapper [] (Some next'))
          end
      | retval :: rest => (Ok retval, StreamServerWrapper rest nextServer)
      end
  | OtherServer l =>
      let (r, l') := Listener_accept l in (r, OtherServer l')
  end.

(** [n] calls of [accept()] in a row: what each returned, and the state
    left. *)
Fixpoint accepts (n : nat) (s : StreamServer) : list (result StreamRW) * StreamServer :=
  match n with
  | O => ([], s)
  | S n' =>
      let (r, s1) := accept s in
      let (rs, s2) := accepts n' s1 in
      (r :: rs, s2)
  end.
End StreamServers.

Arguments StreamServerWrapper {StreamRW Listener} streams nextServer.
Arguments OtherServer {StreamRW Listener} l.
Arguments accept {StreamRW Listener} Listener_accept s.
Arguments accepts {StreamRW Listener} Listener_accept n s.

(** ** The stream adapters (stream.h, lines 369-495) *)

(** [EOF] and [char_traits<char>::eof()]. *)
Definition EOF : Z := (-1)%Z.

(** Whether plain [char] is signed is left to the platform. *)
Class Platform : Type := { char_is_signed : bool }.

(** [uint8_t] to [int]. *)
Definition int_of_byte (b : ascii) : Z := Z.of_N (N_of_ascii b).

(** [int] to [char] or [uint8_t], and [char_traits<char>::to_char_type]: the
    low eight bits. *)
Definition char_of_int (i : Z) : ascii := ascii_of_N (Z.to_N (i mod 256)).

(** [char] to [int]: sign-extended where [char] is signed. *)
Definition int_of_char `{Platform} (c : ascii) : Z :=
  let u := int_of_byte c in
  if char_is_signed && (128 <=? u)%Z then (u - 256)%Z else u.

Section ReaderAdapter.
Context {R : Type} {HR : Reader R} {P : Platform}.

(** [class ReaderStreamBuf]: whether [reader] is non-null, the reader it
    shares, the one-character [buffer], and whether the get area (set over
    [buffer] by [underflow]) still holds it. *)
Record ReaderStreamBuf : Type := {
  reader : bool;
  reader_obj : shared R;
  buffer : ascii;
  avail : bool
}.

(** [ReaderStreamBuf::close]: [reader = nullptr]. *)
Definition ReaderStreamBuf_close (sb : ReaderStreamBuf) : ReaderStreamBuf :=
  if reader sb then
    {| reader := false; reader_obj := release destroyReader (reader_obj sb);
       buffer := buffer sb; avail := avail sb |}
  else sb.

(** [ReaderStreamBuf::getByteInternal]. *)
Definition getByteInternal (sb : ReaderStreamBuf) : result Z * ReaderStreamBuf :=
  if negb (reader sb) then (Ok EOF, sb)
  else
    let (r, obj) := readByte (target (reader_obj sb)) in
    let sb' := {| reader := true; reader_obj := with_target (reader_obj sb) obj;
                  buffer := buffer sb; avail := avail sb |} in
    match r with
    | Ok b => (Ok (int_of_byte b), sb')
    | Throw e =>
        if isEOFException e then (Ok EOF, sb')
        else if isIOException e then (Ok EOF, sb')
        else (Throw e, sb')
    end.

(** [ReaderStreamBuf::underflow]. *)
Definition underflow (sb : ReaderStreamBuf) : result Z * ReaderStreamBuf :=
  match getByteInternal sb with
  | (Throw e, sb') => (Throw e, sb')
  | (Ok ch, sb') =>
      if (ch =? EOF)%Z then (Ok EOF, sb')
      else
        let buffer' := char_of_int ch in
        (Ok (int_of_char buffer'),
         {| reader := reader sb'; reader_obj := reader_obj sb';
            buffer := buffer'; avail := true |})
  end.

(** [streambuf::uflow], not overridden: [underflow], then the character at
    the get pointer is taken. *)
Definition uflow (sb : ReaderStreamBuf) : result Z * ReaderStreamBuf :=
  match underflow sb with
  | (Throw e, sb') => (Throw e, sb')
  | (Ok c, sb') =>
      if (c =? EOF)%Z then (Ok EOF, sb')
      else (Ok (int_of_byte (buffer sb')),
            {| reader := reader sb'; reader_obj := reader_obj sb';
               buffer := buffer sb'; avail := false |})
  end.

(** [streambuf::sbumpc]. *)
Definition sbumpc (sb : ReaderStreamBuf) : result Z * ReaderStreamBuf :=
  if avail sb then
    (Ok (int_of_byte (buffer sb)),
     {| reader := reader sb; reader_obj := reader_obj sb;
        buffer := buffer sb; avail := false |})
  else uflow sb.

(** [class ReaderIStream]: the buffer [sb] and the stream state, kept as
    [good()]. *)
Record ReaderIStream : Type := {
  is_sb : ReaderStreamBuf;
  is_good : bool
}.

(** [ReaderIStream(reader)] on a non-null pointer shared with
    [other_owners] more owners. *)
Definition ReaderIStream_new (r : R) (owners : nat) : ReaderIStream :=
  {| is_sb := {| reader := true;
                 reader_obj := {| target := r; other_owners := owners;
                                  destroyed := false |};
                 buffer := zero; avail := false |};
     is_good := true |}.

(** [ReaderIStream::close]. *)
Definition ReaderIStream_close (ist : ReaderIStream) : ReaderIStream :=
  {| is_sb := ReaderStreamBuf_close (is_sb ist); is_good := is_good ist |}.

(** [is.get(ch)]: the character read, or [None] when the call fails (the
    stream was not good, the buffer gave [eof()], or it raised, which
    [get] catches). *)
Definition ReaderIStream_get (ist : ReaderIStream) : option ascii * ReaderIStream :=
  if negb (is_good ist) then (None, ist)
  else
    match sbumpc (is_sb ist) with
    | (Throw e, sb') => (None, {| is_sb := sb'; is_good := false |})
    | (Ok c, sb') =>
        if (c =? EOF)%Z then (None, {| is_sb := sb'; is_good := false |})
        else (Some (char_of_int c), {| is_sb := sb'; is_good := true |})
    end.

(** [while(is.get(ch)) msg += ch;] (main.cpp, lines 22-23).  The loop runs
    as long as the reader delivers; [fuel] bounds the iterations. *)
Fixpoint readLoop (fuel : nat) (ist : ReaderIStream) (msg : string)
  : option (string * ReaderIStream) :=
  match fuel with
  | O => None
  | S fuel' =>
      match ReaderIStream_get ist with
      | (Some ch, ist') => readLoop fuel' ist' (msg ++ String ch EmptyString)
      | (None, ist') => Some (msg, ist')
      end
  end.
End ReaderAdapter.

Arguments ReaderStreamBuf R : clear implicits.
Arguments ReaderIStream R : clear implicits.

Section WriterAdapter.
Context {W : Type} {HW : Writer W}.

(** [class WriterStreamBuf]: whether [writer] is non-null, and the writer
    it shares. *)
Record WriterStreamBuf : Type := {
  writer : bool;
  writer_obj : shared W
}.

(** [WriterStreamBuf::close]: [writer = nullptr]. *)
Definition WriterStreamBuf_close (sb : WriterStreamBuf) : WriterStreamBuf :=
  if writer sb then
    {| writer := false; writer_obj := release destroyWriter (writer_obj sb) |}
  else sb.

(** [WriterStreamBuf::putByteInternal]. *)
Definition putByteInternal (sb : WriterStreamBuf) (byte : Z) : result Z * WriterStreamBuf :=
  if negb (writer sb) then (Ok (-1)%Z, sb)
  else
    let (r, obj) := writeByte (target (writer_obj sb)) (char_of_int byte) in
    let sb' := {| writer := true; writer_obj := with_target (writer_obj sb) obj |} in
    match r with
    | Ok _ => (Ok 0%Z, sb')
    | Throw e => if isIOException e then (Ok (-1)%Z, sb') else (Throw e, sb')
    end.

(** [WriterStreamBuf::sync]. *)
Definition sync (sb : WriterStreamBuf) : result Z * WriterStreamBuf :=
  if negb (writer sb) then (Ok (-1)%Z, sb)
  else
    let (r, obj) := flush (target (writer_obj sb)) in
    let sb' := {| writer := true; writer_obj := with_target (writer_obj sb) obj |} in
    match r with
    | Ok _ => (Ok 0%Z, sb')
    | Throw e => if isIOException e then (Ok (-1)%Z, sb') else (Throw e, sb')
    end.

(** [WriterStreamBuf::overflow]. *)
Definition overflow (sb : WriterStreamBuf) (ch : Z) : result Z * WriterStreamBuf :=
  if (ch =? EOF)%Z then sync sb else putByteInternal sb ch.

(** [streambuf::xsputn], not overridden, on a buffer without put area:
    [overflow] for each character until one gives [eof()]; the count of
    characters put. *)
Fixpoint xsputn (sb : WriterStreamBuf) (s : string) : result nat * WriterStreamBuf :=
  match s with
  | EmptyString => (Ok O, sb)
  | String c s' =>
      match overflow sb (int_of_byte c) with
      | (Throw e, sb') => (Throw e, sb')
      | (Ok r, sb') =>
          if (r =? EOF)%Z then (Ok O, sb')
          else
            match xsputn sb' s' with
            | (Ok n, sb'') => (Ok (S n), sb'')
            | (Throw e, sb'') => (Throw e, sb'')
            end
      end
  end.

(** [class WriterOStream]: the buffer [sb] and the stream state, kept as
    [good()]. *)
Record WriterOStream : Type := {
  os_sb : WriterStreamBuf;
  os_good : bool
}.

(** [WriterOStream(writer)] on a non-null pointer shared with
    [other_owners] more owners. *)
Definition WriterOStream_new (w : W) (owners : nat) : WriterOStream :=
  {| os_sb := {| writer := true;
                 writer_obj := {| target := w; other_owners := owners;
                                  destroyed := false |} |};
     os_good := true |}.

(** [WriterOStream::close]. *)
Definition WriterOStream_close (os : WriterOStream) : WriterOStream :=
  {| os_sb := WriterStreamBuf_close (os_sb os); os_good := os_good os |}.

(** [os << s] for a character string: nothing is put on a stream that is not
    good; the stream stops being good when the buffer takes fewer characters
    than given, or raises (which the inserter catches). *)
Definition insert (os : WriterOStream) (s : string) : WriterOStream :=
  if negb (os_good os) then os
  else
    match xsputn (os_sb os) s with
    | (Ok n, sb') => {| os_sb := sb'; os_good := (n =? String.length s)%nat |}
    | (Throw e, sb') => {| os_sb := sb'; os_good := false |}
    end.
End WriterAdapter.

Arguments WriterStreamBuf W : clear implicits.
Arguments WriterOStream W : clear implicits.

(** ** [is >> hex >> t] for a [time_t] (the C++ library's [num_get]) *)

(** [isspace] in the "C" locale. *)
Definition isspace (c : ascii) : bool :=
  let n := nat_of_ascii c in
  ((9 <=? n) && (n <=? 13) || (n =? 32))%nat.

(** The leading white space that the input sentry skips. *)
Fixpoint skipws (s : string) : string :=
  match s with
  | String c s' => if isspace c then skipws s' else s
  | EmptyString => EmptyString
  end.

(** The value of a hexadecimal digit. *)
Definition hex_digit (c : ascii) : option Z :=
  let n := Z.of_nat (nat_of_ascii c) in
  if ((48 <=? n) && (n <=? 57))%Z then Some (n - 48)%Z
  else if ((97 <=? n) && (n <=? 102))%Z then Some (n - 87)%Z
  else if ((65 <=? n) && (n <=? 70))%Z then Some (n - 55)%Z
  else None.

(** The digits accumulated from the front of [s]: how many there are, and their
    value in base 16, starting from [acc]. *)
Fixpoint hex_accumulate (s : string) (count : nat) (acc : Z) : nat * Z :=
  match s with
  | EmptyString => (count, acc)
  | String c s' =>
      match hex_digit c with
      | Some d => hex_accumulate s' (S count) (16 * acc + d)%Z
      | None => (count, acc)
      end
  end.

(** [time_t] is a 64-bit [long]. *)
Definition LONG_MAX : Z := (2 ^ 63 - 1)%Z.
Definition LONG_MIN : Z := (- 2 ^ 63)%Z.

(** [num_get] on base 16: an optional sign, an optional [0x] or [0X], then
    digits.  Without any digit the conversion fails and the value stored is 0;
    a value out of range is stored as the nearest limit. *)
Definition num_get_hex (s : string) : Z :=
  let (negative, s1) :=
    match s with
    | String c s' =>
        if (c =? "-")%char then (true, s')
        else if (c =? "+")%char then (false, s')
        else (false, s)
    | EmptyString => (false, s)
    end in
  let s2 :=
    match s1 with
    | String c (String x s') =>
        if (c =? "0")%char && ((x =? "x")%char || (x =? "X")%char) then s'
        else s1
    | _ => s1
    end in
  let (count, value) := hex_accumulate s2 O 0%Z in
  match count with
  | O => 0%Z
  | S _ =>
      if negative then (if (value >? - LONG_MIN)%Z then LONG_MIN else - value)%Z
      else (if (value >? LONG_MAX)%Z then LONG_MAX else value)
  end.

(** [istringstream is(field); is >> hex >> t;]: the new value of [t].  When
    nothing follows the white space the sentry fails and [t] is left as it
    was; otherwise [num_get] stores its value. *)
Definition extract_hex (field : string) (t : Z) : Z :=
  match skipws field with
  | EmptyString => t
  | String c s' => num_get_hex (String c s')
  end.

(** ** The request handler (main.cpp) *)

(** The big-integer library, bigmath.h, is not among the sources; its
    functions that the handler calls inside the [try] block are taken as they
    come: [BigUnsigned::parseBase64] and [powMod] return a value or raise,
    [toByteString] returns the bytes. *)
Class BigMath : Type := {
  parseBase64 : string -> result N;
  powMod : N -> N -> N -> result N;
  toByteString : N -> string
}.

(** Modelled from the spec: [BigUnsigned::divMod(a, b, quotient, remainder)]
    of bigmath.h, which is not among the sources, is the
    division-with-remainder that splits its first argument "into a quotient
    and remainder" by the second. *)
Definition divMod (a b : N) : N * N := (a / b, a mod b)%N.

(** The C library calls of the handler: [time(NULL)] at its [k]-th call
    during one run, and [strftime] with ["%c"] on [localtime(&t)].  Where
    [localtime] returns a null pointer (the year of [t] does not fit
    [struct tm]), there is no text, [None]: [strftime] is then called on the
    null pointer, which is undefined, and the process dies. *)
Class CLib : Type := {
  time : nat -> Z;
  strftime_c : Z -> option string
}.

(** The globals of main.cpp (lines 12-16). *)
Record Config : Type := {
  decryptionModulus : N;
  decryptionExponent : N;
  useInfoMessages : bool
}.

Definition randomBitCount : N := 64.
Definition checkSumModulus : N := 8191.

(** What a run of the handler does to [os]. *)
Inductive os_action : Type :=
| os_insert (s : string)
| os_close.

(** What a run of the handler appends to [messages]. *)
Inductive message : Type :=
| Error_ (reason : string)
| Info_ (deviceName : string)
| Event_ (deviceName time_text description : string).

(** The text of each message, as the handler builds it. *)
Definition message_text (m : message) : string :=
  match m with
  | Error_ reason => "Error : " ++ reason ++ String LF ""
  | Info_ deviceName => "Info : " ++ deviceName ++ " : syncing" ++ String LF ""
  | Event_ deviceName time_text description =>
      "Event : " ++ deviceName ++ " : " ++ time_text ++ " : " ++ description
        ++ String LF ""
  end.

Fixpoint messages_text (ms : list message) : string :=
  match ms with
  | [] => ""
  | m :: ms' => message_text m ++ messages_text ms'
  end.

(** One run after the request was read: the actions on [os] and the messages
    appended, in order, and whether the run, instead of returning, dies at
    line 130 after them. *)
Record outcome : Type := {
  os_actions : list os_action;
  appended : list message;
  dies : bool
}.

(** The rejecting exits: [messages += "Error : ...\n"; os << "0"; return;]. *)
Definition reject (reason : string) : outcome :=
  {| os_actions := [os_insert "0"]; appended := [Error_ reason]; dies := false |}.

Section Handler.
Context {BM : BigMath} {CL : CLib}.
Variable cfg : Config.

(** The check of line 60 on the decrypted integer [d]: after [divMod] has
    put the quotient back into [v], [checkSum] is compared with
    [v % checkSumModulus]. *)
Definition checksum_matches (d : N) : bool :=
  let (v, checkSum) := divMod d checkSumModulus in
  (checkSum =? v mod checkSumModulus)%N.

(** Lines 53 and 55: the block is parsed, then taken to the power
    [decryptionExponent] modulo [decryptionModulus]. *)
Definition decodeBlock (block : string) : result N :=
  match parseBase64 block with
  | Throw e => Throw e
  | Ok v => powMod v (decryptionExponent cfg) (decryptionModulus cfg)
  end.

(** The body of the decryption loop for one block (lines 53-63): the bytes to
    append to [unencrypted], or what is thrown. *)
Definition decryptBlock (block : string) : result string :=
  match decodeBlock block with
  | Throw e => Throw e
  | Ok v =>
      let (v, checkSum) := divMod v checkSumModulus in
      if negb (checkSum =? v mod checkSumModulus)%N
      then Throw (std_exception "checksum doesn't match")
      else
        let v := N.shiftr v randomBitCount in
        Ok (toByteString v)
  end.

(** The decryption loop (lines 49-65), from the state [location],
    [newLineIndex], [unencrypted]; [None] when [fuel] iterations do not reach
    the end of the loop. *)
Fixpoint decryptLoop (fuel : nat) (msg : string) (location : nat)
    (newLineIndex : option nat) (unencrypted : string) : option (result string) :=
  match newLineIndex with
  | None => Some (Ok unencrypted)
  | Some newLineIndex =>
      match fuel with
      | O => None
      | S fuel' =>
          match decryptBlock (substr msg location (newLineIndex - location)) with
          | Throw e => Some (Throw e)
          | Ok bytes =>
              let location := newLineIndex + 1 in
              decryptLoop fuel' msg location (find_first_of msg LF location)
                          (unencrypted ++ bytes)
          end
      end
  end.

(** Lines 94-100: the stats string and the rest of the message. *)
Definition takeStats (msg : string) : string * string :=
  match find_first_of msg LF 0 with
  | Some statsStringLength =>
      (substr msg 0 statsStringLength, substr_from msg (statsStringLength + 1))
  | None => ("", msg)
  end.

(** Lines 103-113: the loop that splits the rest into [parts]; [None] when
    [fuel] iterations do not reach the end of the loop. *)
Fixpoint splitLoop (fuel : nat) (msg : string) : option (list (Z * string)) :=
  if (msg =? "")%string then Some []
  else
    match fuel with
    | O => None
    | S fuel' =>
        match find_first_of msg LF 0 with
        | None => Some [(0%Z, msg)]
        | Some newLinePos =>
            match splitLoop fuel' (substr_from msg (newLinePos + 1)) with
            | Some parts => Some ((0%Z, substr msg 0 newLinePos) :: parts)
            | None => None
            end
        end
    end.

(** Lines 116-125: one part gets its time, read at [now], and its text. *)
Definition stamp (now : Z) (part : Z * string) : Z * string :=
  let t := now in
  let str := snd part in
  match find_first_of str SP 0 with
  | Some splitPos =>
      (extract_hex (substr str 0 splitPos) t, substr_from str (splitPos + 1))
  | None => (t, str)
  end.

(** Lines 114-126: the loop over [parts]; the iteration for the [k]-th part
    makes the [k]-th call of [time(NULL)]. *)
Fixpoint stampLoop (k : nat) (parts : list (Z * string)) : list (Z * string) :=
  match parts with
  | [] => []
  | part :: rest => stamp (time k) part :: stampLoop (S k) rest
  end.

(** Lines 127-132: one message for each part, up to the first part whose
    time [localtime] does not convert: there line 130 passes a null pointer
    to [strftime] and the run dies, which the flag tells. *)
Fixpoint emit (deviceName : string) (parts : list (Z * string)) : list message * bool :=
  match parts with
  | [] => ([], false)
  | part :: rest =>
      match strftime_c (fst part) with
      | None => ([], true)
      | Some str =>
          let (events, died) := emit deviceName rest in
          (Event_ deviceName str (snd part) :: events, died)
      end
  end.

(** Lines 81-132, on the plain or decrypted [msg]. *)
Definition parseBody (msg : string) : option outcome :=
  match find_first_of msg LF 0 with
  | None => Some (reject "can't find device name")
  | Some deviceNameLength =>
      let deviceName := substr msg 0 deviceNameLength in
      let msg := substr_from msg (deviceNameLength + 1) in
      let info := if useInfoMessages cfg then [Info_ deviceName] else [] in
      let (statsString, msg) := takeStats msg in
      match splitLoop (S (String.length msg)) msg with
      | None => None
      | Some parts =>
          let (events, died) := emit deviceName (stampLoop 0 parts) in
          Some {| os_actions := [os_insert "1"; os_close];
                  appended := info ++ events;
                  dies := died |}
      end
  end.

(** Lines 26-132: the handler once [msg] was read. *)
Definition handleRequest (msg : string) : option outcome :=
  if (String.length msg <? 1)%nat then Some (reject "Invalid request")
  else
    match String.get 0 msg with
    | Some "0"%char =>
        let msg := substr_from msg 1 in
        if negb (decryptionModulus cfg =? 0)%N
        then Some (reject "unencrypted message attempted")
        else parseBody msg
    | Some "1"%char =>
        let msg := substr_from msg 1 in
        match decryptLoop (S (String.length msg)) msg 0 (find_first_of msg LF 0) "" with
        | None => None
        | Some (Throw e) => Some (reject (what e))
        | Some (Ok unencrypted) => parseBody unencrypted
        end
    | _ => Some (reject "Invalid encryption type")
    end.

Context {R W : Type} {HR : Reader R} {HW : Writer W} {P : Platform}.

(** The actions of a run, applied to [os]. *)
Fixpoint apply_os (os : WriterOStream W) (actions : list os_action) : WriterOStream W :=
  match actions with
  | [] => os
  | os_insert s :: rest => apply_os (insert os s) rest
  | os_close :: rest => apply_os (WriterOStream_close os) rest
  end.

(** [connectionHandler(is, os, messages)]: the three objects as the call
    leaves them; [None] when the call does not return: the reader delivers
    more than [fuel] bytes, or the run dies at line 130. *)
Definition connectionHandler (fuel : nat) (ist : ReaderIStream R) (os : WriterOStream W)
    (messages : string) : option (ReaderIStream R * WriterOStream W * string) :=
  match readLoop fuel ist "" with
  | None => None
  | Some (msg, ist) =>
      let ist := ReaderIStream_close ist in
      match handleRequest msg with
      | None => None
      | Some o =>
          if dies o then None
          else
            Some (ist, apply_os os (os_actions o),
                  (messages ++ messages_text (appended o))%string)
      end
  end.
End Handler.

(** ** Vocabulary of the statements *)

(** [c] does not occur in [s]. *)
Fixpoint lacks (c : ascii) (s : string) : bool :=
  match s with
  | EmptyString => true
  | String a s' => negb (Ascii.eqb a c) && lacks c s'
  end.

(** Each line followed by its terminator. *)
Fixpoint unlines (ls : list string) : string :=
  match ls with
  | [] => ""
  | l :: ls' => l ++ String LF (unlines ls')
  end.

(** The last line of a message, when it has no terminator, is a part of its
    own unless it is empty. *)
Definition last_part (tail : string) : list string :=
  if (tail =? "")%string then [] else [tail].

(** The strings of a list, one after the other. *)
Fixpoint join (ls : list string) : string :=
  match ls with
  | [] => ""
  | l :: ls' => l ++ join ls'
  end.

(** The text of an unencrypted request, after the wire grammar: the tag ['0'],
    the device name line, the stats line when there is one, and the event
    lines. *)
Definition request_text (deviceName : string) (stats : option string)
    (events : list string) : string :=
  String "0" (deviceName ++ String LF
     (match stats with Some s => s ++ String LF "" | None => "" end
      ++ unlines events)).

(** The parts that a list of event lines stands for, before they get their
    time. *)
Definition raw_parts (events : list string) : list (Z * string) :=
  map (fun e => (0%Z, e)) events.

(** A timestamp field: one or more hexadecimal digits. *)
Fixpoint hex_digits (s : string) : bool :=
  match s with
  | EmptyString => true
  | String c s' =>
      match hex_digit c with Some _ => hex_digits s' | None => false end
  end.

Definition hex_field (s : string) : bool :=
  match s with EmptyString => false | _ => hex_digits s end.

(** The number that a string of hexadecimal digits denotes. *)
Fixpoint hex_number (s : string) : Z :=
  match s with
  | EmptyString => 0%Z
  | String c s' =>
      (match hex_digit c with Some d => d | None => 0 end
       * 16 ^ Z.of_nat (String.length s') + hex_number s')%Z
  end.

(** Whether an event line begins with a timestamp field followed by a space. *)
Definition has_timestamp (line : string) : bool :=
  match find_first_of line SP 0 with
  | Some splitPos => hex_field (substr line 0 splitPos)
  | None => false
  end.

Section HandlerVocabulary.
Context {BM : BigMath} {CL : CLib}.
Variable cfg : Config.

(** The bytes that a decrypted integer [d] carries once its check passed:
    the quotient by the checksum modulus, without its low random bits. *)
Definition plaintext_of (d : N) : string :=
  toByteString (N.shiftr (d / checkSumModulus) randomBitCount).

(** A block decodes and its check passes, giving the bytes [bytes]. *)
Definition block_passes (block bytes : string) : Prop :=
  exists d, decodeBlock cfg block = Ok d /\ checksum_matches d = true
            /\ bytes = plaintext_of d.

(** A block decodes and its check does not pass. *)
Definition block_mismatches (block : string) : Prop :=
  exists d, decodeBlock cfg block = Ok d /\ checksum_matches d = false.

(** The library raises while a block is decoded. *)
Definition block_raises (block : string) (e : exn) : Prop :=
  decodeBlock cfg block = Throw e.

(** The blocks taken in order, each through the loop body, from the bytes
    gathered so far. *)
Fixpoint decryptAll (blocks : list string) (unencrypted : string) : result string :=
  match blocks with
  | [] => Ok unencrypted
  | block :: rest =>
      match decryptBlock cfg block with
      | Throw e => Throw e
      | Ok bytes => decryptAll rest (unencrypted ++ bytes)
      end
  end.

(** The messages that open the batch of an accepted request. *)
Definition info_messages (deviceName : string) : list message :=
  if useInfoMessages cfg then [Info_ deviceName] else [].

(** The messages of an accepted request with the device name [deviceName]
    and the event lines [events]: one for each, in order, the [k]-th with the
    time and the text that [stamp] gives it at the [k]-th reading of the
    clock; they stop before the first line whose time [localtime] does not
    convert. *)
Definition event_messages (deviceName : string) (events : list string) : list message :=
  fst (emit deviceName (stampLoop 0 (raw_parts events))).

(** Whether the run dies while it emits the messages of [events]. *)
Definition events_die (deviceName : string) (events : list string) : bool :=
  snd (emit deviceName (stampLoop 0 (raw_parts events))).

(** Every event line gets a time that [localtime] converts. *)
Definition times_in_range (events : list string) : Prop :=
  Forall (fun part => strftime_c (fst part) <> None)
         (stampLoop 0 (raw_parts events)).

(** Some event line gets a time that [localtime] does not convert. *)
Definition time_out_of_range (events : list string) : Prop :=
  Exists (fun part => strftime_c (fst part) = None)
         (stampLoop 0 (raw_parts events)).
End HandlerVocabulary.

(** ** Sample collaborators for the examples *)

(** An instance of the big-integer interface, for the examples: base 64 with
    the most significant digit first, raising on any other character; the
    power computed directly; the bytes with the most significant first. *)
Definition base64_digit (c : ascii) : option N :=
  let n := N_of_ascii c in
  if ((65 <=? n) && (n <=? 90))%N then Some (n - 65)%N
  else if ((97 <=? n) && (n <=? 122))%N then Some (n - 71)%N
  else if ((48 <=? n) && (n <=? 57))%N then Some (n + 4)%N
  else if (n =? 43)%N then Some 62%N
  else if (n =? 47)%N then Some 63%N
  else None.

Fixpoint base64_value (s : string) (acc : N) : result N :=
  match s with
  | EmptyString => Ok acc
  | String c s' =>
      match base64_digit c with
      | Some d => base64_value s' (64 * acc + d)%N
      | None => Throw (std_exception "invalid base 64 digit")
      end
  end.

Fixpoint bytes_of (fuel : nat) (n : N) (acc : string) : string :=
  match fuel with
  | O => acc
  | S fuel' =>
      if (n =? 0)%N then acc
      else bytes_of fuel' (n / 256)%N (String (ascii_of_N (n mod 256)) acc)
  end.

Definition sample_bigmath : BigMath := {|
  parseBase64 := fun s => base64_value s 0%N;
  powMod := fun v e m => Ok ((v ^ e) mod m)%N;
  toByteString := fun n => bytes_of (N.to_nat (N.size n)) n ""
|}.

(** An instance of the C library calls, for the examples: the clock starts at
    1700000000 and advances by one at each reading; the time is printed as
    the decimal number of seconds; [localtime] converts the times from
    -67768040609740800 to 67768036191676799, the seconds of the years that
    fit [struct tm] at UTC. *)
Definition sample_clib : CLib := {|
  time := fun k => (1700000000 + Z.of_nat k)%Z;
  strftime_c := fun t =>
    if ((-67768040609740800 <=? t) && (t <=? 67768036191676799))%Z
    then Some (NilZero.string_of_int (Z.to_int t))
    else None
|}.

(** No key loaded, as [main] leaves the globals without dec-key.txt. *)
Definition no_key : Config :=
  {| decryptionModulus := 0; decryptionExponent := 0; useInfoMessages := false |}.

(** A key for the examples: exponent 1 and a modulus above every block
    used. *)
Definition sample_key : Config :=
  {| decryptionModulus := 2 ^ 200; decryptionExponent := 1;
     useInfoMessages := false |}.

(** The block that carries the bytes [payload] under [sample_key]: the
    payload above [randomBitCount] random bits, times the checksum modulus,
    plus the checksum that line 60 expects. *)
Definition sample_block_value (payload random : N) : N :=
  let q := (N.shiftl payload randomBitCount + random)%N in
  (q * checkSumModulus + q mod checkSumModulus)%N.

(** In base 64: the block that carries "dev" under [sample_key] (random
    bits 777), and the one that carries "dev" and a newline (random bits
    12345). *)
Definition block_dev : string := "MjEpaigAAAAAAYTRM".
Definition block_dev_line : string := "yMSlvJ9gAAAAAGBwyo".
(** [block_dev_line] with its checksum off by one. *)
Definition block_bad : string := "yMSlvJ9gAAAAAGBwyp".

(** A file open for reading with the bytes of [s] left, and a file whose
    device fails. *)
Definition file_of (s : string) : FILE :=
  {| f_input := list_ascii_of_string s; f_output := [];
     f_broken := false; f_closed := false |}.

Definition broken_file : FILE :=
  {| f_input := []; f_output := []; f_broken := true; f_closed := false |}.

Definition x86 : Platform := {| char_is_signed := true |}.

(** ** More of stream.h *)

(** [IOException(exception * e)] (lines 40-49): the exception built from
    another one.  Its message is that of [e] when [e] is an [IOException],
    and that of [e] after "IO Error : " otherwise. *)
Definition IOException_of (e : exn) : exn :=
  IOException (if isIOException e then what e else "IO Error : " ++ what e).

(** [n] calls of [readByte] in a row: what each returned, and the reader
    left. *)
Fixpoint reads {R : Type} `{Reader R} (n : nat) (r : R) : list (result ascii) * R :=
  match n with
  | O => ([], r)
  | S n' =>
      let (x, r1) := readByte r in
      let (xs, r2) := reads n' r1 in
      (x :: xs, r2)
  end.

(** The bytes of a [MemoryReader] that are still to be read. *)
Definition remaining (r : MemoryReader) : list ascii :=
  firstn (m_length r - m_offset r) (skipn (m_offset r) (m_mem r)).

(** The byte 0xFF, which a signed [char] holds as -1. *)
Definition is_ff (c : ascii) : bool := (N_of_ascii c =? 255)%N.

(** The bytes before the first 0xFF. *)
Fixpoint before_ff (l : list ascii) : list ascii :=
  match l with
  | [] => []
  | c :: l' => if is_ff c then [] else c :: before_ff l'
  end.

(** What the reading loop takes from the bytes [l]. *)
Definition deliverable `{Platform} (l : list ascii) : list ascii :=
  if char_is_signed then before_ff l else l.

(** A good [ReaderIStream] with an empty get area over the file [f], which
    [owners] other pointers share; [b] is what its one-character buffer
    holds. *)
Definition file_stream (f : FILE) (owners : nat) (b : ascii) : ReaderIStream FILE :=
  {| is_sb := {| reader := true;
                 reader_obj := {| target := f; other_owners := owners;
                                  destroyed := false |};
                 buffer := b; avail := false |};
     is_good := true |}.

(** ** More of main.cpp: [connectionThreadFn] and the loop of [main] *)

(** The [ostream] that [connectionThreadFn] writes the messages to: what
    [<<] of a string and what [flush] do to it. *)
Class LogStream (L : Type) : Type := {
  log_insert : L -> string -> L;
  log_flush : L -> L
}.

(** A channel held as [StreamRWWrapper] holds it (stream.h, lines 281-301):
    the reader and the writer that [preaderInternal] and [pwriterInternal]
    point to (neither null), how many pointers besides the wrapper's share
    each of them, and how many pointers to the wrapper there are besides the
    one at hand. *)
Record StreamRWWrapper (R W : Type) : Type := {
  preaderInternal : R;
  pwriterInternal : W;
  reader_owners : nat;
  writer_owners : nat;
  stream_owners : nat
}.
Arguments preaderInternal {R W} s.
Arguments pwriterInternal {R W} s.
Arguments reader_owners {R W} s.
Arguments writer_owners {R W} s.
Arguments stream_owners {R W} s.

(** What a call of [connectionThreadFn] leaves: the reader and the writer,
    each with the number of pointers that still share it, and the log. *)
Record thread_result (R W L : Type) : Type := {
  reader_left : shared R;
  writer_left : shared W;
  log_left : L
}.
Arguments reader_left {R W L} t.
Arguments writer_left {R W L} t.
Arguments log_left {R W L} t.

Section Thread.
Context {BM : BigMath} {CL : CLib}.
Variable cfg : Config.
Context {R W L : Type} {HR : Reader R} {HW : Writer W} {HL : LogStream L}
        {P : Platform}.

(** How many pointers share the reader or the writer of [stream] besides an
    adapter, once [stream = nullptr] was executed: the wrapper is destroyed
    with its two pointers when it has no other owner, and is one more owner
    otherwise. *)
Definition owners_after_reset (stream : StreamRWWrapper R W) (others : nat) : nat :=
  match stream_owners stream with
  | O => others
  | S _ => S others
  end.

(** [connectionThreadFn(stream, plogStream)] (main.cpp, lines 135-143): the
    two adapters are built on the pointers of the channel, the pointer to the
    channel is reset, the handler runs on an empty [messages], the messages
    go to the log, and the adapters are destroyed on return, [os] first:
    each releases the pointer that it still holds.  [None] when the handler
    does not return. *)
Definition connectionThreadFn (fuel : nat) (stream : StreamRWWrapper R W) (log : L)
    : option (thread_result R W L) :=
  let ist := ReaderIStream_new (preaderInternal stream)
               (owners_after_reset stream (reader_owners stream)) in
  let os := WriterOStream_new (pwriterInternal stream)
              (owners_after_reset stream (writer_owners stream)) in
  match connectionHandler cfg fuel ist os "" with
  | None => None
  | Some (ist, os, messages) =>
      let log := log_flush (log_insert log messages) in
      let os := WriterOStream_close os in
      let ist := ReaderIStream_close ist in
      Some {| reader_left := reader_obj (is_sb ist);
              writer_left := writer_obj (os_sb os);
              log_left := log |}
  end.


End Thread.

(** A log kept as the text written to it. *)
Definition text_log : LogStream string := {|
  log_insert := fun log s => (log ++ s)%string;
  log_flush := fun log => log
|}.



(** The byte that answers a request. *)
Definition reply_of (o : outcome) : string :=
  match os_actions o with
  | os_insert s :: _ => s
  | _ => ""
  end.

(* ================================================================== *)
(** * Part II: lemmas and theorems *)
(* ================================================================== *)

(** ** Strings *)

Lemma append_assoc (a b c : string) : ((a ++ b) ++ c = a ++ (b ++ c))%string.
Proof. induction a as [|x a IH]; simpl; [reflexivity | now rewrite IH]. Qed.

Lemma append_nil_r (a : string) : (a ++ "")%string = a.
Proof. induction a as [|x a IH]; simpl; [reflexivity | now rewrite IH]. Qed.

Lemma length_append (a b : string) :
  String.length (a ++ b) = String.length a + String.length b.
Proof. induction a as [|x a IH]; simpl; [reflexivity | now rewrite IH]. Qed.

Lemma find_first_of_lacks (c : ascii) (s : string) :
  lacks c s = true -> find_first_of s c 0 = None.
Proof.
  induction s as [|a s IH]; simpl; intros Hl; [reflexivity|].
  apply andb_prop in Hl as [Ha Hs].
  apply negb_true_iff in Ha. rewrite Ha, (IH Hs). reflexivity.
Qed.

Lemma find_first_of_none_lacks (c : ascii) (s : string) :
  find_first_of s c 0 = None -> lacks c s = true.
Proof.
  induction s as [|a s IH]; simpl; intros Hf; [reflexivity|].
  destruct (Ascii.eqb a c); [discriminate|]. simpl.
  destruct (find_first_of s c 0); [discriminate|]. now apply IH.
Qed.

Lemma find_first_of_hit (c : ascii) (a b : string) :
  lacks c a = true ->
  find_first_of (a ++ String c b) c 0 = Some (String.length a).
Proof.
  induction a as [|x a IH]; simpl; intros Hl.
  - now rewrite Ascii.eqb_refl.
  - apply andb_prop in Hl as [Hx Ha].
    apply negb_true_iff in Hx. rewrite Hx, (IH Ha). reflexivity.
Qed.

Lemma find_first_of_skip (c : ascii) (pre s : string) :
  find_first_of (pre ++ s) c (String.length pre)
  = option_map (Nat.add (String.length pre)) (find_first_of s c 0).
Proof.
  induction pre as [|x pre IH]; simpl.
  - now destruct (find_first_of s c 0).
  - rewrite IH. now destruct (find_first_of s c 0).
Qed.

Lemma substr_skip (pre s : string) (n : nat) :
  substr (pre ++ s) (String.length pre) n = substr s 0 n.
Proof. unfold substr. induction pre as [|x pre IH]; simpl; [reflexivity | exact IH]. Qed.

Lemma substr_prefix (a b : string) :
  substr (a ++ b) 0 (String.length a) = a.
Proof.
  unfold substr. induction a as [|x a IH]; simpl.
  - now destruct b.
  - now rewrite IH.
Qed.

Lemma substr_from_app (a b : string) :
  substr_from (a ++ b) (String.length a) = b.
Proof. induction a as [|x a IH]; simpl; [reflexivity | exact IH]. Qed.

Lemma substr_from_line (a b : string) (c : ascii) :
  substr_from (a ++ String c b) (String.length a + 1) = b.
Proof.
  replace (a ++ String c b)%string with ((a ++ String c "") ++ b)%string
    by (rewrite append_assoc; reflexivity).
  replace (String.length a + 1) with (String.length (a ++ String c ""))
    by (rewrite length_append; reflexivity).
  apply substr_from_app.
Qed.

Lemma unlines_cons_app (e : string) (es : list string) (tail : string) :
  (unlines (e :: es) ++ tail)%string = (e ++ String LF (unlines es ++ tail))%string.
Proof. simpl. now rewrite append_assoc. Qed.

(** ** The loops of the handler *)

Section HandlerFacts.
Context {BM : BigMath} {CL : CLib}.
Variable cfg : Config.

(** The splitting loop returns the lines of the message, with fuel to
    spare. *)
Lemma splitLoop_lines (events : list string) (tail : string) :
  Forall (fun e => lacks LF e = true) events ->
  lacks LF tail = true ->
  forall fuel, String.length (unlines events ++ tail) < fuel ->
  splitLoop fuel (unlines events ++ tail)
  = Some (raw_parts (events ++ last_part tail)).
Proof.
  intros Hev Htail. induction Hev as [|e es He Hes IH]; intros fuel Hfuel.
  - simpl in *. unfold last_part.
    destruct fuel as [|fuel]; [lia|]. simpl.
    destruct (tail =? "")%string eqn:E; [reflexivity|].
    now rewrite (find_first_of_lacks _ _ Htail).
  - rewrite unlines_cons_app in *.
    destruct fuel as [|fuel]; [lia|].
    cbn [splitLoop].
    replace ((e ++ String LF (unlines es ++ tail)) =? "")%string with false
      by (destruct e; reflexivity).
    rewrite (find_first_of_hit _ _ _ He), substr_prefix, substr_from_line.
    rewrite IH.
    + reflexivity.
    + rewrite length_append in Hfuel. simpl in Hfuel. lia.
Qed.

(** The decryption loop, started after a prefix that was already consumed,
    runs the loop body over the terminated blocks in order and drops what
    follows the last terminator. *)
Lemma decryptLoop_blocks (blocks : list string) (tail : string) :
  Forall (fun b => lacks LF b = true) blocks ->
  lacks LF tail = true ->
  forall (pre unencrypted : string) (fuel : nat),
  List.length blocks <= fuel ->
  decryptLoop cfg fuel (pre ++ unlines blocks ++ tail) (String.length pre)
    (find_first_of (pre ++ unlines blocks ++ tail) LF (String.length pre))
    unencrypted
  = Some (decryptAll cfg blocks unencrypted).
Proof.
  intros Hb Htail. induction Hb as [|b bs Hb Hbs IH]; intros pre acc fuel Hfuel.
  - simpl. rewrite find_first_of_skip, (find_first_of_lacks _ _ Htail).
    destruct fuel; reflexivity.
  - destruct fuel as [|fuel]; [simpl in Hfuel; lia|].
    rewrite unlines_cons_app.
    rewrite find_first_of_skip, (find_first_of_hit _ _ _ Hb).
    cbn [option_map decryptLoop decryptAll].
    replace (String.length pre + String.length b - String.length pre)
      with (String.length b) by lia.
    rewrite substr_skip, substr_prefix.
    destruct (decryptBlock cfg b) as [bytes|e]; [|reflexivity].
    specialize (IH (pre ++ b ++ String LF "")%string (acc ++ bytes)%string fuel).
    replace (String.length (pre ++ b ++ String LF ""))
      with (String.length pre + String.length b + 1) in IH
      by (rewrite !length_append; simpl; lia).
    replace ((pre ++ b ++ String LF "") ++ unlines bs ++ tail)%string
      with (pre ++ b ++ String LF (unlines bs ++ tail))%string in IH
      by (rewrite !append_assoc; reflexivity).
    apply IH. simpl in Hfuel. lia.
Qed.

Lemma length_unlines_blocks (blocks : list string) (tail : string) :
  List.length blocks <= String.length (unlines blocks ++ tail).
Proof.
  induction blocks as [|b bs IH]; simpl; [lia|].
  rewrite append_assoc, length_append. simpl. simpl in IH. lia.
Qed.

(** The encrypted branch of the handler, on a body of terminated blocks. *)
Lemma handleRequest_encrypted (blocks : list string) (tail : string) :
  Forall (fun b => lacks LF b = true) blocks ->
  lacks LF tail = true ->
  handleRequest cfg (String "1" (unlines blocks ++ tail))
  = match decryptAll cfg blocks "" with
    | Throw e => Some (reject (what e))
    | Ok unencrypted => parseBody cfg unencrypted
    end.
Proof.
  intros Hb Htail. unfold handleRequest.
  cbn [String.length Nat.ltb Nat.leb String.get substr_from].
  pose proof (decryptLoop_blocks blocks tail Hb Htail "" ""
                (S (String.length (unlines blocks ++ tail)))) as H.
  simpl in H. simpl. rewrite H.
  - reflexivity.
  - pose proof (length_unlines_blocks blocks tail). lia.
Qed.
End HandlerFacts.

(** Every string is a run of terminated lines followed by a last, possibly
    empty, line without terminator. *)
Lemma lines_decompose (s : string) :
  exists (ls : list string) (tail : string),
    s = (unlines ls ++ tail)%string
    /\ Forall (fun l => lacks LF l = true) ls /\ lacks LF tail = true.
Proof.
  induction s as [|c s (ls & tail & Hs & Hls & Htail)].
  - exists [], "". repeat split; constructor.
  - destruct (Ascii.eqb c LF) eqn:Ec.
    + apply Ascii.eqb_eq in Ec. subst c.
      exists ("" :: ls), tail. subst s. repeat split; auto.
    + destruct ls as [|l ls].
      * exists [], (String c tail). subst s. simpl. repeat split; auto.
        now rewrite Ec.
      * exists (String c l :: ls), tail. subst s. simpl. repeat split; auto.
        inversion Hls; subst. constructor; auto. simpl. now rewrite Ec.
Qed.

(** ** The emitting loop *)

Section EmitFacts.
Context {CL : CLib}.

(** When [localtime] converts the time of every part, the loop runs to its
    end and gives one message for each part. *)
Lemma emit_in_range (deviceName : string) (parts : list (Z * string)) :
  Forall (fun part => strftime_c (fst part) <> None) parts ->
  snd (emit deviceName parts) = false
  /\ List.length (fst (emit deviceName parts)) = List.length parts.
Proof.
  induction 1 as [|part rest Hpart _ [IHd IHl]]; [split; reflexivity|].
  cbn [emit]. destruct (strftime_c (fst part)) as [str|]; [|contradiction].
  destruct (emit deviceName rest) as [events died]. cbn [fst snd] in *.
  split; [exact IHd | cbn; now rewrite IHl].
Qed.

Lemma emit_nth (deviceName : string) (parts : list (Z * string)) :
  Forall (fun part => strftime_c (fst part) <> None) parts ->
  forall (k : nat) (part : Z * string),
    nth_error parts k = Some part ->
    exists text,
      strftime_c (fst part) = Some text
      /\ nth_error (fst (emit deviceName parts)) k
         = Some (Event_ deviceName text (snd part)).
Proof.
  induction 1 as [|p rest Hp _ IH]; intros k part Hk; [now destruct k|].
  cbn [emit]. destruct (strftime_c (fst p)) as [str|] eqn:Hstr; [|contradiction].
  destruct (emit deviceName rest) as [events died] eqn:Hemit. cbn [fst] in *.
  destruct k as [|k]; cbn [nth_error] in *.
  - injection Hk as <-. exists str. auto.
  - exact (IH k part Hk).
Qed.

(** When [localtime] does not convert the time of some part, the loop does
    not run to its end. *)
Lemma emit_out_of_range (deviceName : string) (parts : list (Z * string)) :
  Exists (fun part => strftime_c (fst part) = None) parts ->
  snd (emit deviceName parts) = true.
Proof.
  induction 1 as [part rest Hpart | part rest _ IH]; cbn [emit].
  - now rewrite Hpart.
  - destruct (strftime_c (fst part)); [|reflexivity].
    destruct (emit deviceName rest). exact IH.
Qed.

Lemma emit_events (deviceName : string) (parts : list (Z * string)) (m : message) :
  In m (fst (emit deviceName parts)) ->
  exists text description, m = Event_ deviceName text description.
Proof.
  revert m. induction parts as [|part rest IH]; intros m; cbn [emit]; [intros []|].
  destruct (strftime_c (fst part)) as [str|]; [|intros []].
  destruct (emit deviceName rest) as [events died]. cbn [fst] in *.
  intros [<- | Hin]; eauto.
Qed.
End EmitFacts.

Section BodyFacts.
Context {BM : BigMath} {CL : CLib}.
Variable cfg : Config.

Lemma splitLoop_total (msg : string) :
  exists parts, splitLoop (S (String.length msg)) msg = Some parts.
Proof.
  destruct (lines_decompose msg) as (ls & tail & -> & Hls & Htail).
  eexists. apply splitLoop_lines; auto.
Qed.

Lemma parseBody_total (msg : string) : exists o, parseBody cfg msg = Some o.
Proof.
  unfold parseBody. destruct (find_first_of msg LF 0); [|eauto].
  destruct (takeStats _) as [stats rest].
  destruct (splitLoop_total rest) as [parts ->].
  destruct (emit _ _). eauto.
Qed.

(** A body with a device name line, a stats line and event lines. *)
Lemma parseBody_stats_events (deviceName stats : string) (events : list string)
    (tail : string) :
  lacks LF deviceName = true -> lacks LF stats = true ->
  Forall (fun e => lacks LF e = true) events -> lacks LF tail = true ->
  parseBody cfg (deviceName ++ String LF (stats ++ String LF (unlines events ++ tail)))
  = Some {| os_actions := [os_insert "1"; os_close];
            appended := info_messages cfg deviceName
                        ++ event_messages deviceName (events ++ last_part tail);
            dies := events_die deviceName (events ++ last_part tail) |}.
Proof.
  intros HD HS Hev Htail. unfold parseBody, takeStats.
  rewrite (find_first_of_hit _ _ _ HD), substr_prefix, substr_from_line.
  rewrite (find_first_of_hit _ _ _ HS), substr_from_line.
  rewrite splitLoop_lines by (auto; lia).
  unfold event_messages, events_die. now destruct (emit _ _).
Qed.

(** A body with nothing but unterminated text after the device name line. *)
Lemma parseBody_no_newline_after_name (deviceName rest : string) :
  lacks LF deviceName = true -> lacks LF rest = true ->
  takeStats rest = ("", rest)
  /\ parseBody cfg (deviceName ++ String LF rest)
     = Some {| os_actions := [os_insert "1"; os_close];
               appended := info_messages cfg deviceName
                           ++ event_messages deviceName (last_part rest);
               dies := events_die deviceName (last_part rest) |}.
Proof.
  intros HD HR.
  assert (Hst : takeStats rest = ("", rest))
    by (unfold takeStats; now rewrite (find_first_of_lacks _ _ HR)).
  split; [exact Hst|].
  unfold parseBody.
  rewrite (find_first_of_hit _ _ _ HD), substr_prefix, substr_from_line, Hst.
  pose proof (splitLoop_lines [] rest (Forall_nil _) HR
                (S (String.length rest))) as H.
  change (unlines [] ++ rest)%string with rest in H.
  rewrite H by lia.
  unfold event_messages, events_die. cbn [app]. now destruct (emit _ _).
Qed.

Lemma parseBody_no_newline (msg : string) :
  lacks LF msg = true ->
  parseBody cfg msg = Some (reject "can't find device name").
Proof.
  intros H. unfold parseBody. now rewrite (find_first_of_lacks _ _ H).
Qed.

(** What [parseBody] returns is a rejection with one error message or an
    acceptance without any. *)
Lemma parseBody_shape (msg : string) (o : outcome) :
  parseBody cfg msg = Some o ->
  o = reject "can't find device name"
  \/ (os_actions o = [os_insert "1"; os_close]
      /\ exists deviceName events,
           appended o = info_messages cfg deviceName ++ event_messages deviceName events).
Proof.
  unfold parseBody. destruct (find_first_of msg LF 0) as [n|].
  - destruct (takeStats _) as [stats rest].
    destruct (lines_decompose rest) as (ls & tail & -> & Hls & Htail).
    rewrite splitLoop_lines by (auto; lia).
    destruct (emit _ _) as [events died] eqn:Hemit.
    intros [= <-]. right. split; [reflexivity|].
    eexists _, _. cbn [appended]. unfold event_messages. now rewrite Hemit.
  - intros [= <-]. now left.
Qed.

Lemma decryptBlock_passes (block : string) (d : N) :
  decodeBlock cfg block = Ok d -> checksum_matches d = true ->
  decryptBlock cfg block = Ok (plaintext_of d).
Proof.
  unfold decryptBlock, checksum_matches, plaintext_of, divMod.
  intros -> H. now rewrite H.
Qed.

Lemma decryptBlock_mismatches (block : string) (d : N) :
  decodeBlock cfg block = Ok d -> checksum_matches d = false ->
  decryptBlock cfg block = Throw (std_exception "checksum doesn't match").
Proof.
  unfold decryptBlock, checksum_matches, divMod. intros -> H. now rewrite H.
Qed.

Lemma decryptBlock_raises (block : string) (e : exn) :
  decodeBlock cfg block = Throw e -> decryptBlock cfg block = Throw e.
Proof. unfold decryptBlock. now intros ->. Qed.

(** A block goes one of three ways. *)
Lemma decryptBlock_cases (block : string) :
  (exists bytes, block_passes cfg block bytes /\ decryptBlock cfg block = Ok bytes)
  \/ (block_mismatches cfg block
      /\ decryptBlock cfg block = Throw (std_exception "checksum doesn't match"))
  \/ (exists e, block_raises cfg block e /\ decryptBlock cfg block = Throw e).
Proof.
  destruct (decodeBlock cfg block) as [d|e] eqn:Hd.
  - destruct (checksum_matches d) eqn:Hc.
    + left. exists (plaintext_of d). split.
      * exists d. auto.
      * now apply decryptBlock_passes.
    + right; left. split.
      * exists d. auto.
      * now apply (decryptBlock_mismatches _ d).
  - right; right. exists e. split; [exact Hd | now apply decryptBlock_raises].
Qed.

Lemma decryptAll_pass (blocks payloads : list string) :
  Forall2 (block_passes cfg) blocks payloads ->
  forall acc, decryptAll cfg blocks acc = Ok (acc ++ join payloads)%string.
Proof.
  induction 1 as [|b p bs ps (d & Hd & Hc & ->) _ IH]; intros acc; simpl.
  - now rewrite append_nil_r.
  - rewrite (decryptBlock_passes _ _ Hd Hc), IH. now rewrite append_assoc.
Qed.

Lemma decryptAll_ok (blocks : list string) :
  forall acc plain, decryptAll cfg blocks acc = Ok plain ->
  exists payloads, Forall2 (block_passes cfg) blocks payloads
                   /\ plain = (acc ++ join payloads)%string.
Proof.
  induction blocks as [|b bs IH]; intros acc plain; simpl.
  - intros [= <-]. exists []. split; [constructor | now rewrite append_nil_r].
  - destruct (decryptBlock_cases b) as [(bytes & Hp & ->)|[(_ & ->)|(e & _ & ->)]];
      try discriminate.
    intros H. destruct (IH _ _ H) as (ps & Hps & ->).
    exists (bytes :: ps). split; [now constructor|].
    simpl. now rewrite append_assoc.
Qed.

Lemma decryptAll_fails (blocks : list string) :
  Exists (fun b => block_mismatches cfg b \/ exists e, block_raises cfg b e) blocks ->
  forall acc, exists e, decryptAll cfg blocks acc = Throw e.
Proof.
  induction 1 as [b bs Hb | b bs _ IH]; intros acc; simpl.
  - destruct Hb as [(d & Hd & Hc) | (e & He)].
    + rewrite (decryptBlock_mismatches _ _ Hd Hc). eauto.
    + rewrite (decryptBlock_raises _ _ He). eauto.
  - destruct (decryptBlock cfg b); eauto.
Qed.

(** The first block whose check fails, after blocks that the library decoded,
    ends the loop with the checksum error. *)
Lemma decryptAll_mismatch (pre post : list string) (b : string) :
  Forall (fun x => exists dx, decodeBlock cfg x = Ok dx) pre ->
  block_mismatches cfg b ->
  forall acc, decryptAll cfg (pre ++ b :: post) acc
              = Throw (std_exception "checksum doesn't match").
Proof.
  intros Hpre (d & Hd & Hc).
  induction Hpre as [|x xs (dx & Hx) _ IH]; intros acc; simpl.
  - now rewrite (decryptBlock_mismatches _ _ Hd Hc).
  - destruct (checksum_matches dx) eqn:Hcx.
    + rewrite (decryptBlock_passes _ _ Hx Hcx). apply IH.
    + now rewrite (decryptBlock_mismatches _ _ Hx Hcx).
Qed.

Lemma handleRequest_total (msg : string) : exists o, handleRequest cfg msg = Some o.
Proof.
  destruct msg as [|c body]; [eexists; reflexivity|].
  destruct (lines_decompose body) as (ls & tail & Hbody & Hls & Htail).
  assert (Henc : exists o, handleRequest cfg (String "1" body) = Some o).
  { subst body. rewrite handleRequest_encrypted by auto.
    destruct (decryptAll cfg ls ""); [apply parseBody_total | eauto]. }
  assert (Hplain : exists o, handleRequest cfg (String "0" body) = Some o).
  { unfold handleRequest. cbn [String.length Nat.ltb Nat.leb String.get substr_from].
    destruct (negb _); [eauto | apply parseBody_total]. }
  destruct c as [[] [] [] [] [] [] [] []];
    try assumption; eexists; reflexivity.
Qed.
End BodyFacts.

(** ** The handler on whole requests *)

Lemma char_of_int_of_byte (c : ascii) : char_of_int (int_of_byte c) = c.
Proof.
  unfold char_of_int, int_of_byte.
  pose proof (N_ascii_bounded c) as Hb.
  rewrite Z.mod_small by lia.
  now rewrite N2Z.id, ascii_N_embedding.
Qed.

Section RequestFacts.
Context {BM : BigMath} {CL : CLib}.
Variable cfg : Config.
Context {R W : Type} {HR : Reader R} {HW : Writer W} {P : Platform}.

(** The call as a whole, from what the reading loop returns and what the
    handler does with the request read. *)
Lemma connectionHandler_run (fuel : nat) (ist ist' : ReaderIStream R)
    (os : WriterOStream W) (messages msg : string) (o : outcome) :
  readLoop fuel ist "" = Some (msg, ist') ->
  handleRequest cfg msg = Some o ->
  dies o = false ->
  connectionHandler cfg fuel ist os messages
  = Some (ReaderIStream_close ist', apply_os os (os_actions o),
          (messages ++ messages_text (appended o))%string).
Proof. unfold connectionHandler. now intros -> -> ->. Qed.

(** One character inserted in a good stream whose writer takes it: one call
    of [writeByte], and the stream stays good. *)
Lemma insert_char (os : WriterOStream W) (c : ascii) (w' : W) :
  os_good os = true -> writer (os_sb os) = true ->
  writeByte (target (writer_obj (os_sb os))) c = (Ok tt, w') ->
  insert os (String c "")
  = {| os_sb := {| writer := true;
                   writer_obj := with_target (writer_obj (os_sb os)) w' |};
       os_good := true |}.
Proof.
  intros Hg Hw Hwrite. unfold insert. rewrite Hg. simpl.
  unfold overflow, putByteInternal.
  replace (int_of_byte c =? EOF)%Z with false
    by (symmetry; apply Z.eqb_neq; unfold int_of_byte, EOF; lia).
  rewrite Hw, char_of_int_of_byte. simpl. now rewrite Hwrite.
Qed.

(** What the handler returns is a rejection, with its one error message, or
    an acceptance, whose messages hold no error. *)
Lemma handleRequest_shape (msg : string) (o : outcome) :
  handleRequest cfg msg = Some o ->
  (exists reason, o = reject reason)
  \/ (os_actions o = [os_insert "1"; os_close]
      /\ forall reason, ~ In (Error_ reason) (appended o)).
Proof.
  assert (Hbody : forall m, parseBody cfg m = Some o ->
            (exists reason, o = reject reason)
            \/ (os_actions o = [os_insert "1"; os_close]
                /\ forall reason, ~ In (Error_ reason) (appended o))).
  { intros m Hm. destruct (parseBody_shape cfg m o Hm) as [->|[Ha (D & evs & Happ)]].
    - left. eauto.
    - right. split; [exact Ha|]. intros reason Hin. rewrite Happ in Hin.
      apply in_app_or in Hin as [Hin|Hin].
      + unfold info_messages in Hin. destruct (useInfoMessages cfg); simpl in Hin.
        * destruct Hin as [Hin|[]]. discriminate.
        * destruct Hin.
      + unfold event_messages in Hin.
        apply emit_events in Hin as (text & description & Hin). discriminate. }
  unfold handleRequest.
  destruct (String.length msg <? 1)%nat; [intros [= <-]; left; eauto|].
  destruct (String.get 0 msg) as [c|]; [|intros [= <-]; left; eauto].
  destruct c as [[] [] [] [] [] [] [] []];
    try (intros [= <-]; left; eauto; fail).
  - destruct (decryptLoop _ _ _ _ _ _) as [[plain|e]|]; [apply Hbody | | discriminate].
    intros [= <-]; left; eauto.
  - destruct (negb _); [intros [= <-]; left; eauto | apply Hbody].
Qed.

(** C8: for an empty request the handler does nothing but [os << "0"] and
    appends nothing but the message "Error : Invalid request"; on a good
    stream whose writer takes the byte, that is one call of [writeByte] with
    ['0']. *)
Theorem empty_request_rejected :
  handleRequest cfg ""
  = Some {| os_actions := [os_insert "0"];
            appended := [Error_ "Invalid request"];
            dies := false |}
  /\ (forall (fuel : nat) (ist ist' : ReaderIStream R) (os : WriterOStream W)
             (messages : string),
        readLoop fuel ist "" = Some ("", ist') ->
        connectionHandler cfg fuel ist os messages
        = Some (ReaderIStream_close ist', insert os "0",
                (messages ++ "Error : Invalid request" ++ String LF "")%string))
  /\ (forall (os : WriterOStream W) (w' : W),
        os_good os = true -> writer (os_sb os) = true ->
        writeByte (target (writer_obj (os_sb os))) "0"%char = (Ok tt, w') ->
        insert os "0"
        = {| os_sb := {| writer := true;
                         writer_obj := with_target (writer_obj (os_sb os)) w' |};
             os_good := true |}).
Proof.
  split; [reflexivity|]. split.
  - intros fuel ist ist' os messages Hread.
    now rewrite (connectionHandler_run fuel ist ist' os messages "" _ Hread
                   eq_refl eq_refl).
  - intros os w'. apply insert_char.
Qed.

(** C6: a request with the tag ['0'] while a key is configured is rejected
    with ['0'] and "unencrypted message attempted", whatever follows the tag;
    a request whose first character is neither ['0'] nor ['1'] is rejected
    with ['0'] and "Invalid encryption type". *)
Theorem tag_rejections :
  (forall body : string,
     decryptionModulus cfg <> 0%N ->
     handleRequest cfg (String "0" body)
     = Some {| os_actions := [os_insert "0"];
               appended := [Error_ "unencrypted message attempted"];
               dies := false |})
  /\ (forall (c : ascii) (body : string),
        c <> "0"%char -> c <> "1"%char ->
        handleRequest cfg (String c body)
        = Some {| os_actions := [os_insert "0"];
                  appended := [Error_ "Invalid encryption type"];
                  dies := false |}).
Proof.
  split.
  - intros body Hkey. unfold handleRequest.
    cbn [String.length Nat.ltb Nat.leb String.get substr_from].
    apply N.eqb_neq in Hkey. now rewrite Hkey.
  - intros c body H0 H1.
    destruct c as [[] [] [] [] [] [] [] []]; try reflexivity; congruence.
Qed.

(** C7: a body without any newline is rejected with ['0'] and "can't find
    device name": the plain body of a request with the tag ['0'] (no key
    configured), and the decrypted body of a request with the tag ['1'] all
    of whose blocks decoded and passed their check. *)
Theorem missing_device_name_rejected :
  (forall body : string,
     decryptionModulus cfg = 0%N -> lacks LF body = true ->
     handleRequest cfg (String "0" body)
     = Some {| os_actions := [os_insert "0"];
               appended := [Error_ "can't find device name"];
               dies := false |})
  /\ (forall (blocks payloads : list string) (tail : string),
        Forall (fun b => lacks LF b = true) blocks -> lacks LF tail = true ->
        Forall2 (block_passes cfg) blocks payloads ->
        lacks LF (join payloads) = true ->
        handleRequest cfg (String "1" (unlines blocks ++ tail))
        = Some {| os_actions := [os_insert "0"];
                  appended := [Error_ "can't find device name"];
                  dies := false |}).
Proof.
  split.
  - intros body Hkey Hbody. unfold handleRequest.
    cbn [String.length Nat.ltb Nat.leb String.get substr_from].
    rewrite Hkey. simpl. now apply parseBody_no_newline.
  - intros blocks payloads tail Hb Htail Hpass Hplain.
    rewrite handleRequest_encrypted by assumption.
    rewrite (decryptAll_pass cfg _ _ Hpass). simpl.
    now apply parseBody_no_newline.
Qed.

(** C1: each block that the library decodes to [d] is split by the checksum
    modulus, and the remainder is compared with the quotient taken modulo the
    checksum modulus; when they agree the block gives the bytes of the
    quotient without its random bits.  A block where they differ, after
    blocks that the library decoded, rejects the whole request: ['0'] and the
    one message "Error : checksum doesn't match". *)
Theorem checksum_mismatch_rejects :
  (forall (block : string) (d : N),
     decodeBlock cfg block = Ok d ->
     decryptBlock cfg block
     = if (d mod checkSumModulus =? (d / checkSumModulus) mod checkSumModulus)%N
       then Ok (toByteString (N.shiftr (d / checkSumModulus) randomBitCount))
       else Throw (std_exception "checksum doesn't match"))
  /\ (forall (pre post : list string) (b tail : string) (d : N),
        Forall (fun x => lacks LF x = true) (pre ++ b :: post) ->
        lacks LF tail = true ->
        Forall (fun x => exists dx, decodeBlock cfg x = Ok dx) pre ->
        decodeBlock cfg b = Ok d ->
        (d mod checkSumModulus)%N <> ((d / checkSumModulus) mod checkSumModulus)%N ->
        handleRequest cfg (String "1" (unlines (pre ++ b :: post) ++ tail))
        = Some {| os_actions := [os_insert "0"];
                  appended := [Error_ "checksum doesn't match"];
                  dies := false |})
  /\ messages_text [Error_ "checksum doesn't match"]
     = ("Error : checksum doesn't match" ++ String LF "")%string.
Proof.
  split; [|split; [|reflexivity]].
  - intros block d Hd. unfold decryptBlock, divMod. rewrite Hd.
    now destruct (_ =? _)%N.
  - intros pre post b tail d Hb Htail Hpre Hd Hne.
    rewrite handleRequest_encrypted by assumption.
    rewrite decryptAll_mismatch; [reflexivity | assumption |].
    exists d. split; [exact Hd|].
    unfold checksum_matches, divMod. now apply N.eqb_neq.
Qed.

(** C5: on an encrypted request the body is parsed only when every block
    decoded and passed its check, and then what is parsed is the bytes of all
    blocks in order; one block that fails rejects the request.  Every request
    ends in a rejection, whose batch is one error message and nothing else,
    or in an acceptance, whose batch has no error message. *)
Theorem frame_after_all_blocks_verified :
  (forall (blocks : list string) (tail : string),
     Forall (fun b => lacks LF b = true) blocks -> lacks LF tail = true ->
     (forall payloads,
        Forall2 (block_passes cfg) blocks payloads ->
        handleRequest cfg (String "1" (unlines blocks ++ tail))
        = parseBody cfg (join payloads))
     /\ (Exists (fun b => block_mismatches cfg b \/ exists e, block_raises cfg b e)
                blocks ->
         exists reason,
           handleRequest cfg (String "1" (unlines blocks ++ tail))
           = Some {| os_actions := [os_insert "0"];
                     appended := [Error_ reason];
                     dies := false |})
     /\ (forall o,
           handleRequest cfg (String "1" (unlines blocks ++ tail)) = Some o ->
           os_actions o = [os_insert "1"; os_close] ->
           exists payloads, Forall2 (block_passes cfg) blocks payloads))
  /\ (forall msg : string,
        exists o, handleRequest cfg msg = Some o
          /\ ((exists reason,
                 o = {| os_actions := [os_insert "0"];
                        appended := [Error_ reason];
                        dies := false |})
              \/ (os_actions o = [os_insert "1"; os_close]
                  /\ forall reason, ~ In (Error_ reason) (appended o))))
  /\ (forall reason : string,
        messages_text [Error_ reason]
        = ("Error : " ++ reason ++ String LF "")%string).
Proof.
  split; [|split; [|intros reason; cbn; now rewrite append_nil_r]].
  - intros blocks tail Hb Htail. repeat split.
    + intros payloads Hpass. rewrite handleRequest_encrypted by assumption.
      now rewrite (decryptAll_pass cfg _ _ Hpass).
    + intros Hfail. rewrite handleRequest_encrypted by assumption.
      destruct (decryptAll_fails cfg _ Hfail "") as [e ->]. now exists (what e).
    + intros o Ho Hacc. rewrite handleRequest_encrypted in Ho by assumption.
      destruct (decryptAll cfg blocks "") as [plain|e] eqn:Hall.
      * destruct (decryptAll_ok cfg _ _ _ Hall) as (ps & Hps & _). now exists ps.
      * injection Ho as <-. discriminate.
  - intros msg. destruct (handleRequest_total cfg msg) as [o Ho].
    exists o. split; [exact Ho|]. exact (handleRequest_shape msg o Ho).
Qed.
End RequestFacts.

(** ** Timestamps of event lines *)

Lemma hex_digit_range (c : ascii) (d : Z) :
  hex_digit c = Some d -> (0 <= d < 16)%Z /\ 48 <= nat_of_ascii c.
Proof.
  unfold hex_digit.
  repeat match goal with
         | |- context [if ?b then _ else _] => destruct b eqn:?
         end; intros [= <-]; lia.
Qed.

Lemma hex_digit_not (c x : ascii) (d : Z) :
  hex_digit c = Some d -> hex_digit x = None -> (c =? x)%char = false.
Proof.
  intros Hc Hx. destruct (Ascii.eqb_spec c x); [congruence | reflexivity].
Qed.

Lemma hex_digit_not_space (c : ascii) (d : Z) :
  hex_digit c = Some d -> isspace c = false.
Proof.
  intros H. apply hex_digit_range in H as [_ H]. unfold isspace.
  destruct (Nat.leb_spec 9 (nat_of_ascii c)), (Nat.leb_spec (nat_of_ascii c) 13),
    (Nat.eqb_spec (nat_of_ascii c) 32); simpl; try reflexivity; lia.
Qed.

Lemma hex_accumulate_number (s : string) :
  hex_digits s = true ->
  forall (count : nat) (acc : Z),
    hex_accumulate s count acc
    = (count + String.length s,
       (acc * 16 ^ Z.of_nat (String.length s) + hex_number s)%Z).
Proof.
  induction s as [|c s IH];
    cbn [hex_digits hex_accumulate hex_number String.length]; intros Hs count acc.
  - f_equal; [lia | rewrite Z.pow_0_r; lia].
  - destruct (hex_digit c) as [d|]; [|discriminate].
    rewrite (IH Hs). f_equal; [lia|].
    rewrite Nat2Z.inj_succ, Z.pow_succ_r by lia.
    ring.
Qed.

Lemma hex_digits_lack_space (s : string) : hex_digits s = true -> lacks SP s = true.
Proof.
  induction s as [|c s IH]; simpl; [reflexivity|].
  destruct (hex_digit c) as [d|] eqn:Hd; [|discriminate].
  intros Hs. rewrite (hex_digit_not c SP d Hd eq_refl). simpl. auto.
Qed.

Lemma hex_field_digits (s : string) : hex_field s = true -> hex_digits s = true.
Proof. destruct s; [discriminate | trivial]. Qed.

(** On a field of digits within the range of [time_t], the extraction stores
    the number that the digits denote. *)
Lemma extract_hex_field (field : string) (t : Z) :
  hex_field field = true -> (hex_number field <= LONG_MAX)%Z ->
  extract_hex field t = hex_number field.
Proof.
  destruct field as [|c s]; [discriminate|]. intros Hf Hmax.
  change (hex_digits (String c s) = true) in Hf.
  pose proof Hf as Hcs. simpl in Hcs.
  destruct (hex_digit c) as [d|] eqn:Hd; [|discriminate].
  unfold extract_hex. cbn [skipws]. rewrite (hex_digit_not_space c d Hd).
  unfold num_get_hex.
  rewrite (hex_digit_not c "-" d Hd eq_refl), (hex_digit_not c "+" d Hd eq_refl).
  assert (Hs2 : match String c s with
                | String c0 (String x s') =>
                    if ((c0 =? "0")%char && ((x =? "x")%char || (x =? "X")%char))%bool
                    then s' else String c s
                | _ => String c s
                end = String c s).
  { destruct s as [|x s']; [reflexivity|]. simpl in Hcs.
    destruct (hex_digit x) as [dx|] eqn:Hx; [|discriminate].
    rewrite (hex_digit_not x "x" dx Hx eq_refl), (hex_digit_not x "X" dx Hx eq_refl).
    now rewrite andb_false_r. }
  rewrite Hs2, (hex_accumulate_number _ Hf). cbn [Nat.add String.length].
  rewrite Z.mul_0_l, Z.add_0_l.
  destruct (Z.gtb_spec (hex_number (String c s)) LONG_MAX); [lia | reflexivity].
Qed.

Lemma stampLoop_nth (parts : list (Z * string)) `{CLib} :
  forall (k0 k : nat) (part : Z * string),
    nth_error parts k = Some part ->
    nth_error (stampLoop k0 parts) k = Some (stamp (time (k0 + k)) part).
Proof.
  induction parts as [|p ps IH]; intros k0 [|k] part; simpl;
    try discriminate.
  - intros [= <-]. now rewrite Nat.add_0_r.
  - intros Hk. rewrite (IH (S k0) k part Hk). do 3 f_equal. lia.
Qed.

Lemma stampLoop_length (parts : list (Z * string)) `{CLib} :
  forall k0, List.length (stampLoop k0 parts) = List.length parts.
Proof. induction parts as [|p ps IH]; intros k0; simpl; [reflexivity | now rewrite IH]. Qed.

Section Timestamps.
Context {CL : CLib}.

(** C3 (amended): an event line that begins with a field of hexadecimal
    digits (whose value fits [time_t]) followed by a space gets that value as
    its time and the text after the space as its description; an event line
    without any space gets the time read from the clock at its turn and keeps
    its whole text. *)
Theorem event_timestamp :
  (forall (now : Z) (field rest : string),
     hex_field field = true -> (hex_number field <= LONG_MAX)%Z ->
     stamp now (0%Z, (field ++ String SP rest)%string) = (hex_number field, rest))
  /\ (forall (now : Z) (line : string),
        lacks SP line = true -> stamp now (0%Z, line) = (now, line))
  /\ (forall (parts : list (Z * string)) (k : nat) (part : Z * string),
        nth_error parts k = Some part ->
        nth_error (stampLoop 0 parts) k = Some (stamp (time k) part)).
Proof.
  repeat split.
  - intros now field rest Hf Hmax. unfold stamp. cbn [snd].
    rewrite (find_first_of_hit _ _ _ (hex_digits_lack_space _ (hex_field_digits _ Hf))).
    rewrite substr_prefix, substr_from_line.
    now rewrite (extract_hex_field _ _ Hf Hmax).
  - intros now line Hl. unfold stamp. cbn [snd].
    now rewrite (find_first_of_lacks _ _ Hl).
  - intros parts k part Hk. exact (stampLoop_nth parts 0 k part Hk).
Qed.
End Timestamps.

(** ** Accepted requests *)

Section AcceptedRequests.
Context {BM : BigMath} {CL : CLib}.
Variable cfg : Config.
Context {R W : Type} {HR : Reader R} {HW : Writer W} {P : Platform}.

Lemma event_messages_length (deviceName : string) (events : list string) :
  times_in_range events ->
  List.length (event_messages deviceName events) = List.length events.
Proof.
  intros Hrange. unfold event_messages.
  rewrite (proj2 (emit_in_range deviceName _ Hrange)).
  unfold raw_parts. now rewrite stampLoop_length, length_map.
Qed.

Lemma events_survive (deviceName : string) (events : list string) :
  times_in_range events -> events_die deviceName events = false.
Proof. intros Hrange. exact (proj1 (emit_in_range deviceName _ Hrange)). Qed.

Lemma event_messages_nth (deviceName : string) (events : list string)
    (k : nat) (e : string) :
  times_in_range events ->
  nth_error events k = Some e ->
  exists text,
    strftime_c (fst (stamp (time k) (0%Z, e))) = Some text
    /\ nth_error (event_messages deviceName events) k
       = Some (Event_ deviceName text (snd (stamp (time k) (0%Z, e)))).
Proof.
  intros Hrange Hk. unfold event_messages.
  apply (emit_nth deviceName _ Hrange k (stamp (time k) (0%Z, e))).
  rewrite (stampLoop_nth _ 0 k (0%Z, e)); [reflexivity|].
  unfold raw_parts. now rewrite nth_error_map, Hk.
Qed.

(** C2 (amended): a request with the tag ['0'] (no key configured), a device
    name line, a stats line and event lines, the last of which may lack its
    terminator, all with times that [localtime] converts, makes the handler
    do [os << "1"] and then [os.close()], and nothing else on [os], and
    return; the batch has, after the optional info message, one message
    "Event : <deviceName> : <time> : <description>" for each event line, in
    the order of the lines. *)
Theorem unencrypted_request_accepted :
  forall (deviceName stats : string) (events : list string) (tail : string),
    decryptionModulus cfg = 0%N ->
    lacks LF deviceName = true -> lacks LF stats = true ->
    Forall (fun e => lacks LF e = true) events -> lacks LF tail = true ->
    times_in_range (events ++ last_part tail) ->
    let request :=
      String "0" (deviceName ++ String LF (stats ++ String LF (unlines events ++ tail))) in
    let lines := events ++ last_part tail in
    handleRequest cfg request
    = Some {| os_actions := [os_insert "1"; os_close];
              appended := info_messages cfg deviceName
                          ++ event_messages deviceName lines;
              dies := false |}
    /\ List.length (event_messages deviceName lines) = List.length lines
    /\ (forall (k : nat) (e : string),
          nth_error lines k = Some e ->
          exists (t : Z) (description text : string),
            stamp (time k) (0%Z, e) = (t, description)
            /\ strftime_c t = Some text
            /\ nth_error (event_messages deviceName lines) k
               = Some (Event_ deviceName text description)
            /\ message_text (Event_ deviceName text description)
               = ("Event : " ++ deviceName ++ " : " ++ text ++ " : "
                    ++ description ++ String LF "")%string)
    /\ (forall (fuel : nat) (ist ist' : ReaderIStream R) (os : WriterOStream W)
               (messages : string),
          readLoop fuel ist "" = Some (request, ist') ->
          connectionHandler cfg fuel ist os messages
          = Some (ReaderIStream_close ist', WriterOStream_close (insert os "1"),
                  (messages ++ messages_text
                     (info_messages cfg deviceName
                      ++ event_messages deviceName lines))%string)).
Proof.
  intros deviceName stats events tail Hkey HD HS Hev Htail Hrange request lines.
  assert (Hreq : handleRequest cfg request
                 = Some {| os_actions := [os_insert "1"; os_close];
                           appended := info_messages cfg deviceName
                                       ++ event_messages deviceName lines;
                           dies := false |}).
  { unfold request, handleRequest.
    cbn [String.length Nat.ltb Nat.leb String.get substr_from].
    rewrite Hkey. cbn [N.eqb negb].
    rewrite (parseBody_stats_events cfg deviceName stats events tail HD HS Hev Htail).
    now rewrite (events_survive deviceName _ Hrange). }
  split; [exact Hreq|]. split; [now apply event_messages_length|]. split.
  - intros k e Hk.
    destruct (event_messages_nth deviceName lines k e Hrange Hk) as (text & Htext & Hnth).
    destruct (stamp (time k) (0%Z, e)) as [t description] eqn:Hst.
    exists t, description, text. cbn [fst snd] in *. auto.
  - intros fuel ist ist' os messages Hread.
    now rewrite (connectionHandler_run cfg fuel ist ist' os messages _ _ Hread Hreq
                   eq_refl).
Qed.

(** C10 (amended): when what follows the device name line has no newline, the
    stats string is empty, and what follows, unless it is empty, is emitted as
    one event; after a stats line and terminated event lines, a last line
    that is not empty and has no terminator is emitted as the last event.
    All this with event times that [localtime] converts. *)
Theorem unterminated_last_line_emitted :
  (forall deviceName rest : string,
     lacks LF deviceName = true -> lacks LF rest = true -> rest <> "" ->
     times_in_range [rest] ->
     takeStats rest = ("", rest)
     /\ parseBody cfg (deviceName ++ String LF rest)
        = Some {| os_actions := [os_insert "1"; os_close];
                  appended := info_messages cfg deviceName
                              ++ event_messages deviceName [rest];
                  dies := false |}
     /\ (decryptionModulus cfg = 0%N ->
         handleRequest cfg (String "0" (deviceName ++ String LF rest))
         = Some {| os_actions := [os_insert "1"; os_close];
                   appended := info_messages cfg deviceName
                               ++ event_messages deviceName [rest];
                   dies := false |})
     /\ List.length (event_messages deviceName [rest]) = 1)
  /\ (forall (deviceName stats : string) (events : list string) (tail : string),
        lacks LF deviceName = true -> lacks LF stats = true ->
        Forall (fun e => lacks LF e = true) events ->
        lacks LF tail = true -> tail <> "" ->
        times_in_range (events ++ [tail]) ->
        parseBody cfg
          (deviceName ++ String LF (stats ++ String LF (unlines events ++ tail)))
        = Some {| os_actions := [os_insert "1"; os_close];
                  appended := info_messages cfg deviceName
                              ++ event_messages deviceName (events ++ [tail]);
                  dies := false |}
        /\ List.length (event_messages deviceName (events ++ [tail]))
           = S (List.length events)).
Proof.
  split.
  - intros deviceName rest HD Hrest Hne Hrange.
    destruct (parseBody_no_newline_after_name cfg deviceName rest HD Hrest)
      as [Hst Hbody].
    assert (Hlast : last_part rest = [rest]).
    { unfold last_part. apply String.eqb_neq in Hne. now rewrite Hne. }
    rewrite Hlast, (events_survive deviceName _ Hrange) in Hbody.
    split; [exact Hst|]. split; [exact Hbody|]. split.
    + intros Hkey. unfold handleRequest.
      cbn [String.length Nat.ltb Nat.leb String.get substr_from].
      rewrite Hkey. exact Hbody.
    + now rewrite event_messages_length.
  - intros deviceName stats events tail HD HS Hev Htail Hne Hrange.
    rewrite (parseBody_stats_events cfg deviceName stats events tail HD HS Hev Htail).
    unfold last_part. apply String.eqb_neq in Hne. rewrite Hne.
    rewrite (events_survive deviceName _ Hrange). split; [reflexivity|].
    rewrite event_messages_length by exact Hrange.
    rewrite length_app. cbn. lia.
Qed.
End AcceptedRequests.

(** ** Channel sources *)

Section ChannelSources.
Variables StreamRW Listener : Type.
Variable Listener_accept : Listener -> result StreamRW * Listener.

(** While channels are queued, each call takes the front one. *)
Lemma accepts_queue (streams : list StreamRW) (next : option (StreamServer StreamRW Listener)) (k : nat) :
  accepts Listener_accept (List.length streams + k) (StreamServerWrapper streams next)
  = (map Ok streams ++ fst (accepts Listener_accept k (StreamServerWrapper [] next)),
     snd (accepts Listener_accept k (StreamServerWrapper [] next))).
Proof.
  induction streams as [|c cs IH]; cbn [List.length Nat.add map app].
  - now destruct (accepts _ _ _).
  - cbn [accepts accept]. now rewrite IH.
Qed.

(** Once the queue is empty, each call is the next server's. *)
Lemma accepts_delegate (next : StreamServer StreamRW Listener) (k : nat) :
  accepts Listener_accept k (StreamServerWrapper [] (Some next))
  = (fst (accepts Listener_accept k next),
     StreamServerWrapper [] (Some (snd (accepts Listener_accept k next)))).
Proof.
  revert next. induction k as [|k IH]; intros next; [reflexivity|].
  cbn [accepts accept].
  destruct (accept Listener_accept next) as [r next'].
  rewrite IH. now destruct (accepts Listener_accept k next').
Qed.

(** C4: a wrapper built on [N] channels without next server returns them at
    its first [N] calls of [accept], each once and in the order of the list,
    and raises [NoStreamsLeftException] at the call after; with a next
    server, the calls after the first [N] are the next server's. *)
Theorem wrapper_accept_fifo :
  (forall streams : list StreamRW,
     accepts Listener_accept (List.length streams + 1)
       (StreamServerWrapper streams None)
     = (map Ok streams ++ [Throw NoStreamsLeftException],
        StreamServerWrapper [] None))
  /\ (forall (streams : list StreamRW) (next : StreamServer StreamRW Listener) (k : nat),
        accepts Listener_accept (List.length streams + k)
          (StreamServerWrapper streams (Some next))
        = (map Ok streams ++ fst (accepts Listener_accept k next),
           StreamServerWrapper [] (Some (snd (accepts Listener_accept k next)))))
  /\ (forall next : StreamServer StreamRW Listener,
        accept Listener_accept (StreamServerWrapper [] (Some next))
        = (fst (accept Listener_accept next),
           StreamServerWrapper [] (Some (snd (accept Listener_accept next))))).
Proof.
  repeat split.
  - intros streams. now rewrite accepts_queue.
  - intros streams next k. now rewrite accepts_queue, accepts_delegate.
  - intros next. cbn [accept]. now destruct (accept Listener_accept next).
Qed.
End ChannelSources.

(** ** The stream adapters *)

Section Adapters.
Context {R W : Type} {HR : Reader R} {HW : Writer W} {P : Platform}.

(** C9 (amended): whatever [IOException] the wrapped reader or writer raises,
    [EOFException] or another, the adapter returns its end value ([EOF] from
    [getByteInternal] and [underflow], a failed [get]; -1 from
    [putByteInternal] and [sync]) and raises nothing, and the value does not
    tell which exception it was.  Closing the adapter resets its pointer
    without calling the reader or writer: after it the adapter gives the end
    value by itself; the object is left as it was when another owner shares
    it, and is destroyed when the adapter was its last owner. *)
Theorem adapter_swallows_io_failures :
  (forall (sb : ReaderStreamBuf R) (e : exn) (r' : R),
     reader sb = true ->
     readByte (target (reader_obj sb)) = (Throw e, r') ->
     isIOException e = true ->
     let sb' := {| reader := true; reader_obj := with_target (reader_obj sb) r';
                   buffer := buffer sb; avail := avail sb |} in
     getByteInternal sb = (Ok EOF, sb')
     /\ underflow sb = (Ok EOF, sb')
     /\ (avail sb = false ->
         ReaderIStream_get {| is_sb := sb; is_good := true |}
         = (None, {| is_sb := sb'; is_good := false |})))
  /\ (forall (sb : WriterStreamBuf W) (byte : Z) (e : exn) (w' : W),
        writer sb = true ->
        writeByte (target (writer_obj sb)) (char_of_int byte) = (Throw e, w') ->
        isIOException e = true ->
        putByteInternal sb byte
        = (Ok (-1)%Z,
           {| writer := true; writer_obj := with_target (writer_obj sb) w' |}))
  /\ (forall (sb : WriterStreamBuf W) (e : exn) (w' : W),
        writer sb = true ->
        flush (target (writer_obj sb)) = (Throw e, w') ->
        isIOException e = true ->
        sync sb
        = (Ok (-1)%Z,
           {| writer := true; writer_obj := with_target (writer_obj sb) w' |}))
  /\ (forall sb : ReaderStreamBuf R,
        reader sb = true ->
        reader (ReaderStreamBuf_close sb) = false
        /\ getByteInternal (ReaderStreamBuf_close sb)
           = (Ok EOF, ReaderStreamBuf_close sb)
        /\ (other_owners (reader_obj sb) <> 0 ->
            reader_obj (ReaderStreamBuf_close sb) = reader_obj sb)
        /\ (other_owners (reader_obj sb) = 0 ->
            reader_obj (ReaderStreamBuf_close sb)
            = {| target := destroyReader (target (reader_obj sb));
                 other_owners := 0; destroyed := true |}))
  /\ (forall sb : WriterStreamBuf W,
        writer sb = true ->
        writer (WriterStreamBuf_close sb) = false
        /\ (forall byte, putByteInternal (WriterStreamBuf_close sb) byte
                         = (Ok (-1)%Z, WriterStreamBuf_close sb))
        /\ (other_owners (writer_obj sb) <> 0 ->
            writer_obj (WriterStreamBuf_close sb) = writer_obj sb)
        /\ (other_owners (writer_obj sb) = 0 ->
            writer_obj (WriterStreamBuf_close sb)
            = {| target := destroyWriter (target (writer_obj sb));
                 other_owners := 0; destroyed := true |})).
Proof.
  split; [|split; [|split; [|split]]].
  - intros sb e r' Hr Hread Hio sb'.
    assert (Hget : getByteInternal sb = (Ok EOF, sb')).
    { unfold getByteInternal. rewrite Hr, Hread. cbn [negb]. rewrite Hio.
      now destruct (isEOFException e). }
    assert (Hunder : underflow sb = (Ok EOF, sb')).
    { unfold underflow. rewrite Hget. reflexivity. }
    split; [exact Hget|]. split; [exact Hunder|].
    intros Hav. unfold ReaderIStream_get, sbumpc, uflow. cbn [is_good is_sb negb].
    rewrite Hav, Hunder. reflexivity.
  - intros sb byte e w' Hw Hwrite Hio.
    unfold putByteInternal. rewrite Hw, Hwrite. cbn [negb]. now rewrite Hio.
  - intros sb e w' Hw Hflush Hio.
    unfold sync. rewrite Hw, Hflush. cbn [negb]. now rewrite Hio.
  - intros sb Hr. unfold ReaderStreamBuf_close. rewrite Hr.
    repeat split.
    + intros Hn. cbn [reader_obj]. unfold release.
      destruct (other_owners (reader_obj sb)); [contradiction | reflexivity].
    + intros Hn. cbn [reader_obj]. unfold release. now rewrite Hn.
  - intros sb Hw. unfold WriterStreamBuf_close. rewrite Hw.
    repeat split.
    + intros Hn. cbn [writer_obj]. unfold release.
      destruct (other_owners (writer_obj sb)); [contradiction | reflexivity].
    + intros Hn. cbn [writer_obj]. unfold release. now rewrite Hn.
Qed.
End Adapters.

(** ** Examples *)

(** A successful [get] on a file reader takes one byte off the file. *)
Lemma get_file_progress `{Platform} (ist ist' : ReaderIStream FILE) (ch : ascii) :
  avail (is_sb ist) = false ->
  ReaderIStream_get ist = (Some ch, ist') ->
  avail (is_sb ist') = false
  /\ S (List.length (f_input (target (reader_obj (is_sb ist')))))
     = List.length (f_input (target (reader_obj (is_sb ist)))).
Proof.
  destruct ist as [[rd [f owners d] b av] good]. cbn [is_sb avail]. intros ->.
  unfold ReaderIStream_get, sbumpc, uflow, underflow, getByteInternal.
  cbn [is_good is_sb avail reader reader_obj target buffer readByte FileReader].
  unfold FileReader_readByte.
  destruct good; [|discriminate]. cbn [negb].
  destruct rd; cbn [negb]; [|cbn; discriminate].
  destruct (f_broken f); [cbn; discriminate|].
  destruct (f_input f) as [|c rest] eqn:Hin; [cbn; discriminate|].
  destruct (int_of_byte c =? EOF)%Z; [discriminate|].
  destruct (int_of_char (char_of_int (int_of_byte c)) =? EOF)%Z; [discriminate|].
  cbn [buffer].
  destruct (int_of_byte (char_of_int (int_of_byte c)) =? EOF)%Z; [discriminate|].
  intros [= _ <-]. cbn. rewrite ?Hin. split; reflexivity.
Qed.

(** Reading a file ends: a stream with an empty get area over a file that
    holds [n] more bytes leaves the reading loop within [n + 1] calls of
    [get]. *)
Lemma readLoop_file_terminates `{Platform} (n : nat) :
  forall (ist : ReaderIStream FILE) (msg : string),
    avail (is_sb ist) = false ->
    List.length (f_input (target (reader_obj (is_sb ist)))) <= n ->
    exists r, readLoop (S n) ist msg = Some r.
Proof.
  induction n as [|n IH]; intros ist msg Hav Hlen; cbn [readLoop];
    destruct (ReaderIStream_get ist) as [[ch|] ist'] eqn:Hget; eauto;
    destruct (get_file_progress ist ist' ch Hav Hget) as [Hav' Hlen'].
  - lia.
  - apply IH; [exact Hav' | lia].
Qed.

(** An empty request read from a file, answered into another file. *)
Lemma empty_request_rejected_witness :
  let ist := ReaderIStream_new (file_of "") 1 in
  let ist' := {| is_sb := is_sb ist; is_good := false |} in
  let os := WriterOStream_new (file_of "") 1 in
  readLoop (P := x86) 1 ist "" = Some ("", ist')
  /\ connectionHandler (BM := sample_bigmath) (CL := sample_clib) (P := x86)
       no_key 1 ist os "log: "
     = Some (ReaderIStream_close ist', insert os "0",
             ("log: " ++ "Error : Invalid request" ++ String LF "")%string)
  /\ f_output (target (writer_obj (os_sb (insert os "0")))) = ["0"%char].
Proof.
  intros ist ist' os.
  pose proof (@empty_request_rejected sample_bigmath sample_clib no_key
                FILE FILE FileReader FileWriter x86) as (_ & Hrun & Hput).
  assert (Hread : readLoop (P := x86) 1 ist "" = Some ("", ist')) by reflexivity.
  split; [exact Hread|]. split.
  - exact (Hrun 1 ist ist' os "log: " Hread).
  - rewrite (Hput os {| f_input := []; f_output := ["0"%char];
                        f_broken := false; f_closed := false |});
      reflexivity.
Defined.

Lemma tag_rejections_witness :
  decryptionModulus sample_key <> 0%N
  /\ handleRequest (BM := sample_bigmath) (CL := sample_clib) sample_key
       (String "0" ("dev" ++ String LF "stats"))
     = Some {| os_actions := [os_insert "0"];
               appended := [Error_ "unencrypted message attempted"]; dies := false |}
  /\ handleRequest (BM := sample_bigmath) (CL := sample_clib) no_key
       (String "2" ("dev" ++ String LF "stats"))
     = Some {| os_actions := [os_insert "0"];
               appended := [Error_ "Invalid encryption type"]; dies := false |}.
Proof.
  pose proof (@tag_rejections sample_bigmath sample_clib sample_key) as [H0 _].
  pose proof (@tag_rejections sample_bigmath sample_clib no_key) as [_ H2].
  assert (Hkey : decryptionModulus sample_key <> 0%N) by (vm_compute; discriminate).
  split; [exact Hkey|]. split.
  - exact (H0 _ Hkey).
  - apply H2; discriminate.
Defined.

Lemma block_dev_passes :
  block_passes (BM := sample_bigmath) sample_key block_dev "dev".
Proof.
  exists (sample_block_value 6579574 777). repeat split; vm_compute; reflexivity.
Defined.

Lemma block_dev_line_passes :
  block_passes (BM := sample_bigmath) sample_key block_dev_line
    ("dev" ++ String LF "").
Proof.
  exists (sample_block_value 1684370954 12345). repeat split; vm_compute; reflexivity.
Defined.

Lemma missing_device_name_rejected_witness :
  handleRequest (BM := sample_bigmath) (CL := sample_clib) no_key (String "0" "dev")
  = Some {| os_actions := [os_insert "0"];
            appended := [Error_ "can't find device name"]; dies := false |}
  /\ handleRequest (BM := sample_bigmath) (CL := sample_clib) sample_key
       (String "1" (unlines [block_dev] ++ ""))
     = Some {| os_actions := [os_insert "0"];
               appended := [Error_ "can't find device name"]; dies := false |}.
Proof.
  split.
  - apply (proj1 (@missing_device_name_rejected sample_bigmath sample_clib no_key));
      reflexivity.
  - apply (proj2 (@missing_device_name_rejected sample_bigmath sample_clib sample_key)
             [block_dev] ["dev"] "").
    + repeat constructor.
    + reflexivity.
    + repeat constructor. exact block_dev_passes.
    + reflexivity.
Defined.

Lemma checksum_mismatch_rejects_witness :
  decodeBlock (BM := sample_bigmath) sample_key block_bad
  = Ok (sample_block_value 1684370954 12345 + 1)%N
  /\ handleRequest (BM := sample_bigmath) (CL := sample_clib) sample_key
       (String "1" (unlines ([block_dev_line] ++ block_bad :: [block_dev]) ++ ""))
     = Some {| os_actions := [os_insert "0"];
               appended := [Error_ "checksum doesn't match"]; dies := false |}.
Proof.
  assert (Hd : decodeBlock (BM := sample_bigmath) sample_key block_bad
               = Ok (sample_block_value 1684370954 12345 + 1)%N)
    by (vm_compute; reflexivity).
  split; [exact Hd|].
  apply (proj1 (proj2 (@checksum_mismatch_rejects sample_bigmath sample_clib sample_key))
           [block_dev_line] [block_dev] block_bad ""
           (sample_block_value 1684370954 12345 + 1)%N).
  - repeat constructor.
  - reflexivity.
  - repeat constructor. exists (sample_block_value 1684370954 12345).
    vm_compute. reflexivity.
  - exact Hd.
  - vm_compute. discriminate.
Defined.

Lemma frame_after_all_blocks_verified_witness :
  handleRequest (BM := sample_bigmath) (CL := sample_clib) sample_key
    (String "1" (unlines [block_dev_line] ++ ""))
  = parseBody (CL := sample_clib) sample_key (join ["dev" ++ String LF ""])%string
  /\ (exists reason,
        handleRequest (BM := sample_bigmath) (CL := sample_clib) sample_key
          (String "1" (unlines [block_dev_line; block_bad] ++ ""))
        = Some {| os_actions := [os_insert "0"]; appended := [Error_ reason];
                  dies := false |}).
Proof.
  pose proof (@frame_after_all_blocks_verified sample_bigmath sample_clib sample_key)
    as [Hframe _].
  split.
  - apply (Hframe [block_dev_line] "").
    + repeat constructor.
    + reflexivity.
    + repeat constructor. exact block_dev_line_passes.
  - apply (Hframe [block_dev_line; block_bad] "").
    + repeat constructor.
    + reflexivity.
    + apply Exists_cons_tl, Exists_cons_hd. left.
      exists (sample_block_value 1684370954 12345 + 1)%N.
      split; vm_compute; reflexivity.
Defined.

Lemma unencrypted_request_accepted_witness :
  handleRequest (BM := sample_bigmath) (CL := sample_clib) no_key
    (String "0" ("dev" ++ String LF ("stats" ++ String LF
       (unlines ["1f door open"; "hello"] ++ "65 last"))))
  = Some {| os_actions := [os_insert "1"; os_close];
            appended := [Event_ "dev" "31" "door open";
                         Event_ "dev" "1700000001" "hello";
                         Event_ "dev" "101" "last"];
            dies := false |}.
Proof.
  pose proof (@unencrypted_request_accepted sample_bigmath sample_clib no_key
                FILE FILE FileReader FileWriter x86
                "dev" "stats" ["1f door open"; "hello"] "65 last") as H.
  destruct H as [H _].
  - reflexivity.
  - reflexivity.
  - reflexivity.
  - repeat constructor.
  - reflexivity.
  - repeat (constructor; [vm_compute; discriminate|]). constructor.
  - exact H.
Defined.

(** C2, as stated, fails without a stats line: the first event line is taken
    for the stats line and gives no message. *)
Lemma stats_line_is_not_optional :
  handleRequest (BM := sample_bigmath) (CL := sample_clib) no_key
    (request_text "dev" None ["hello"])
  = Some {| os_actions := [os_insert "1"; os_close]; appended := []; dies := false |}
  /\ event_messages (CL := sample_clib) "dev" ["hello"]
     = [Event_ "dev" "1700000000" "hello"].
Proof. split; reflexivity. Qed.

Lemma unterminated_last_line_emitted_witness :
  takeStats "12 foo" = ("", "12 foo")
  /\ handleRequest (BM := sample_bigmath) (CL := sample_clib) no_key
       (String "0" ("dev" ++ String LF "12 foo"))
     = Some {| os_actions := [os_insert "1"; os_close];
               appended := [Event_ "dev" "18" "foo"]; dies := false |}
  /\ parseBody (CL := sample_clib) no_key
       ("dev" ++ String LF ("stats" ++ String LF (unlines ["a"] ++ "b")))
     = Some {| os_actions := [os_insert "1"; os_close];
               appended := [Event_ "dev" "1700000000" "a";
                            Event_ "dev" "1700000001" "b"];
               dies := false |}.
Proof.
  pose proof (@unterminated_last_line_emitted sample_bigmath sample_clib no_key)
    as [H1 H2].
  destruct (H1 "dev" "12 foo") as (Hst & _ & Hreq & _);
    [reflexivity | reflexivity | discriminate
    | repeat (constructor; [vm_compute; discriminate|]); constructor |].
  split; [exact Hst|]. split.
  - exact (Hreq eq_refl).
  - apply (H2 "dev" "stats" ["a"] "b");
      [reflexivity | reflexivity | repeat constructor | reflexivity | discriminate
      | repeat (constructor; [vm_compute; discriminate|]); constructor].
Defined.

(** C10, as stated, fails when nothing follows the device name line: no event
    is emitted, where the claim has one event with the empty text. *)
Lemma empty_remainder_emits_nothing :
  lacks LF "" = true
  /\ handleRequest (BM := sample_bigmath) (CL := sample_clib) no_key
       (String "0" ("dev" ++ String LF ""))
     = Some {| os_actions := [os_insert "1"; os_close]; appended := []; dies := false |}
  /\ event_messages (CL := sample_clib) "dev" [""]
     = [Event_ "dev" "1700000000" ""].
Proof. repeat split; reflexivity. Qed.

Lemma event_timestamp_witness :
  stamp 1700000000 (0%Z, ("1f" ++ String SP "door open")%string)
  = (31%Z, "door open")
  /\ stamp 1700000000 (0%Z, "hello") = (1700000000%Z, "hello")
  /\ nth_error (stampLoop (CL := sample_clib) 0 [(0%Z, "a"); (0%Z, "b")]) 1
     = Some (stamp (time (CLib := sample_clib) 1) (0%Z, "b")).
Proof.
  pose proof (@event_timestamp sample_clib) as (H1 & H2 & H3).
  split; [|split].
  - apply (H1 1700000000%Z "1f" "door open"); [reflexivity | vm_compute; discriminate].
  - apply H2. reflexivity.
  - apply H3. reflexivity.
Defined.

(** C3, as stated, fails on a line with a space whose first field is not a
    number: the time stored is 0, not the time of the clock. *)
Lemma unparseable_field_is_not_now :
  has_timestamp "hello world" = false
  /\ stamp 1700000000 (0%Z, "hello world") = (0%Z, "world")
  /\ fst (stamp 1700000000 (0%Z, "hello world")) <> 1700000000%Z.
Proof. repeat split; try reflexivity. vm_compute. discriminate. Qed.

Lemma adapter_swallows_io_failures_witness :
  (* the file is exhausted, or the device fails: the same answer *)
  fst (getByteInternal (is_sb (ReaderIStream_new (file_of "") 1))) = Ok EOF
  /\ fst (getByteInternal (is_sb (ReaderIStream_new broken_file 1))) = Ok EOF
  /\ fst (putByteInternal (os_sb (WriterOStream_new broken_file 1)) 48) = Ok (-1)%Z
  /\ fst (sync (os_sb (WriterOStream_new broken_file 1))) = Ok (-1)%Z
  (* the adapter is closed while the caller still holds the reader *)
  /\ reader_obj (ReaderStreamBuf_close (is_sb (ReaderIStream_new (file_of "abc") 1)))
     = {| target := file_of "abc"; other_owners := 1; destroyed := false |}
  /\ writer_obj (WriterStreamBuf_close (os_sb (WriterOStream_new (file_of "") 1)))
     = {| target := file_of ""; other_owners := 1; destroyed := false |}.
Proof.
  pose proof (@adapter_swallows_io_failures FILE FILE FileReader FileWriter x86)
    as (Hr & Hw & Hs & Hcr & Hcw).
  split; [|split; [|split; [|split; [|split]]]].
  - destruct (Hr (is_sb (ReaderIStream_new (file_of "") 1)) EOFException (file_of "")
                eq_refl eq_refl eq_refl) as [H _].
    now rewrite H.
  - destruct (Hr (is_sb (ReaderIStream_new broken_file 1))
                (IOException "IO Error : can't read from file") broken_file
                eq_refl eq_refl eq_refl) as [H _].
    now rewrite H.
  - now rewrite (Hw (os_sb (WriterOStream_new broken_file 1)) 48%Z
                   (IOException "IO Error : can't write to file") broken_file
                   eq_refl eq_refl eq_refl).
  - now rewrite (Hs (os_sb (WriterOStream_new broken_file 1))
                   (IOException "IO Error : can't write to file") broken_file
                   eq_refl eq_refl eq_refl).
  - destruct (Hcr (is_sb (ReaderIStream_new (file_of "abc") 1)) eq_refl)
      as (_ & _ & H & _).
    apply H. discriminate.
  - destruct (Hcw (os_sb (WriterOStream_new (file_of "") 1)) eq_refl)
      as (_ & _ & H & _).
    apply H. discriminate.
Defined.

(** C9, as stated, fails for an adapter that is the last owner of its reader:
    closing the adapter destroys the reader, and a file reader closes its
    file. *)
Lemma close_destroys_sole_owned_reader :
  let ist := ReaderIStream_new (file_of "abc") 0 in
  let left := reader_obj (is_sb (ReaderIStream_close ist)) in
  f_closed (target (reader_obj (is_sb ist))) = false
  /\ destroyed left = true
  /\ f_closed (target left) = true.
Proof. repeat split; reflexivity. Qed.

(** Three queued channels and a listener that hands out the numbers from 10
    on: five calls of [accept]. *)
Example wrapper_then_listener :
  accepts (fun l : nat => (Ok l, S l)) 5
    (StreamServerWrapper [1; 2; 3] (Some (OtherServer 10)))
  = ([Ok 1; Ok 2; Ok 3; Ok 10; Ok 11],
     StreamServerWrapper [] (Some (OtherServer 12))).
Proof. reflexivity. Qed.

(** A whole run: the request comes from a memory reader, the answer goes to
    a file whose only owner is the stream, so that closing the stream closes
    the file. *)
Example connection_end_to_end :
  let request := ("0dev" ++ String LF ("stats" ++ String LF
                    ("1f door open" ++ String LF "")))%string in
  let memory := {| m_mem := list_ascii_of_string request; m_offset := 0;
                   m_length := String.length request |} in
  match connectionHandler (BM := sample_bigmath) (CL := sample_clib) (P := x86)
          no_key 100 (ReaderIStream_new memory 0)
          (WriterOStream_new (file_of "") 0) "" with
  | Some (ist, os, messages) =>
      reader (is_sb ist) = false
      /\ writer (os_sb os) = false
      /\ f_output (target (writer_obj (os_sb os))) = ["1"%char]
      /\ f_closed (target (writer_obj (os_sb os))) = true
      /\ messages = ("Event : dev : 31 : door open" ++ String LF "")%string
  | None => False
  end.
Proof. vm_compute. repeat split. Qed.

(* ================================================================== *)
(** * Part III: further properties of the sources *)
(* ================================================================== *)

(** ** Readers and writers *)

Lemma reads_memory_eof (r : MemoryReader) (k : nat) :
  m_length r <= m_offset r ->
  reads k r = (repeat (Throw EOFException) k, r).
Proof.
  intros Hend. induction k as [|k IH]; [reflexivity|].
  cbn [reads readByte MemoryReader_Reader]. unfold MemoryReader_readByte.
  destruct (Nat.leb_spec (m_length r) (m_offset r)); [|lia].
  now rewrite IH.
Qed.

Lemma remaining_step (r : MemoryReader) :
  m_offset r < m_length r -> m_length r <= List.length (m_mem r) ->
  remaining r
  = nth (m_offset r) (m_mem r) zero
    :: remaining {| m_mem := m_mem r; m_offset := S (m_offset r);
                    m_length := m_length r |}.
Proof.
  unfold remaining. cbn [m_mem m_offset m_length]. intros Hlt Hlen.
  destruct (m_length r - m_offset r) as [|n] eqn:Hn; [lia|].
  replace (m_length r - S (m_offset r)) with n by lia.
  assert (Hoff : m_offset r < List.length (m_mem r)) by lia.
  revert Hoff. generalize (m_offset r) as off. generalize (m_mem r) as l.
  induction l as [|x l IH]; intros off Hoff; simpl in Hoff; [lia|].
  destruct off as [|off]; [reflexivity|].
  cbn [skipn nth]. apply IH. lia.
Qed.

(** X1: a memory reader built within its buffer hands out the bytes between
    its offset and its length, in order and once each; every call after them
    raises [EOFException] and leaves the reader as it is. *)
Theorem memory_reader_reads (k : nat) :
  forall r : MemoryReader,
    m_offset r <= m_length r -> m_length r <= List.length (m_mem r) ->
    reads k r
    = (map Ok (firstn k (remaining r))
         ++ repeat (Throw EOFException) (k - (m_length r - m_offset r)),
       {| m_mem := m_mem r;
          m_offset := Nat.min (m_offset r + k) (m_length r);
          m_length := m_length r |}).
Proof.
  induction k as [|k IH]; intros r Hoff Hlen.
  - cbn [reads firstn map repeat Nat.sub app]. f_equal.
    destruct r as [m o l]. cbn [m_mem m_offset m_length] in *.
    f_equal. lia.
  - destruct (Nat.eq_dec (m_offset r) (m_length r)) as [Heq|Hne].
    + rewrite reads_memory_eof by lia.
      unfold remaining. replace (m_length r - m_offset r) with 0 by lia.
      cbn [firstn map app]. rewrite Nat.sub_0_r.
      f_equal. destruct r as [m o l]. cbn [m_mem m_offset m_length] in *.
      f_equal. lia.
    + cbn [reads readByte MemoryReader_Reader]. unfold MemoryReader_readByte.
      destruct (Nat.leb_spec (m_length r) (m_offset r)); [lia|].
      rewrite IH by (cbn [m_mem m_offset m_length]; lia).
      rewrite (remaining_step r) by lia.
      cbn [m_mem m_offset m_length firstn map app].
      f_equal.
      * do 2 f_equal. f_equal. lia.
      * f_equal. lia.
Qed.

Lemma memory_reader_reads_witness :
  reads 5 {| m_mem := list_ascii_of_string "abcd"; m_offset := 0; m_length := 3 |}
  = ([Ok "a"%char; Ok "b"%char; Ok "c"%char; Throw EOFException; Throw EOFException],
     {| m_mem := list_ascii_of_string "abcd"; m_offset := 3; m_length := 3 |}).
Proof.
  apply (memory_reader_reads 5
           {| m_mem := list_ascii_of_string "abcd"; m_offset := 0; m_length := 3 |});
    cbn; lia.
Defined.

Lemma int_of_byte_range (c : ascii) : (0 <= int_of_byte c < 256)%Z.
Proof. unfold int_of_byte. pose proof (N_ascii_bounded c). lia. Qed.

Lemma int_of_byte_not_eof (c : ascii) : (int_of_byte c =? EOF)%Z = false.
Proof. apply Z.eqb_neq. pose proof (int_of_byte_range c). unfold EOF. lia. Qed.

(** [underflow] returns [buffer] as a plain [char]: where [char] is signed,
    the byte 0xFF comes out as [EOF]. *)
Lemma int_of_char_eof `{Platform} (c : ascii) :
  (int_of_char c =? EOF)%Z = char_is_signed && is_ff c.
Proof.
  unfold int_of_char, is_ff, EOF. pose proof (int_of_byte_range c) as Hr.
  unfold int_of_byte in *.
  destruct char_is_signed; cbn [andb].
  - destruct (Z.leb_spec 128 (Z.of_N (N_of_ascii c)));
      destruct (N.eqb_spec (N_of_ascii c) 255);
      try (apply Z.eqb_eq; lia); apply Z.eqb_neq; lia.
  - apply Z.eqb_neq. lia.
Qed.

Section FileReading.
Context {P : Platform}.

Lemma get_file_byte (f : FILE) (owners : nat) (b c : ascii) (rest : list ascii) :
  f_broken f = false -> f_input f = c :: rest ->
  char_is_signed && is_ff c = false ->
  ReaderIStream_get (file_stream f owners b)
  = (Some c,
     file_stream {| f_input := rest; f_output := f_output f;
                    f_broken := false; f_closed := f_closed f |} owners c).
Proof.
  intros Hb Hin Hff.
  unfold ReaderIStream_get, sbumpc, uflow, underflow, getByteInternal, file_stream.
  cbn [is_good is_sb avail reader reader_obj target buffer negb readByte FileReader].
  unfold FileReader_readByte. rewrite Hb, Hin.
  rewrite int_of_byte_not_eof, char_of_int_of_byte, int_of_char_eof, Hff.
  cbn [buffer]. rewrite int_of_byte_not_eof, char_of_int_of_byte.
  reflexivity.
Qed.

Lemma get_file_stop (f : FILE) (owners : nat) (b : ascii) :
  f_broken f = true \/ f_input f = []
  \/ (exists c rest, f_input f = c :: rest /\ char_is_signed && is_ff c = true) ->
  exists ist', ReaderIStream_get (file_stream f owners b) = (None, ist')
               /\ is_good ist' = false.
Proof.
  intros Hstop.
  unfold ReaderIStream_get, sbumpc, uflow, underflow, getByteInternal, file_stream.
  cbn [is_good is_sb avail reader reader_obj target buffer negb readByte FileReader].
  unfold FileReader_readByte.
  destruct (f_broken f) eqn:Hb; [cbn; eauto|].
  destruct Hstop as [Hstop | [Hin | (c & rest & Hin & Hff)]]; [discriminate | |];
    rewrite Hin; [cbn; eauto|].
  rewrite int_of_byte_not_eof, char_of_int_of_byte, int_of_char_eof, Hff.
  cbn. eauto.
Qed.

(** The reading loop over a file that does not fail, from any good stream
    with an empty get area. *)
Lemma readLoop_file_bytes :
  forall (input : list ascii) (output : list ascii) (closed : bool)
         (owners : nat) (b : ascii) (msg : string) (fuel : nat),
    List.length input < fuel ->
    exists ist',
      readLoop fuel
        (file_stream {| f_input := input; f_output := output;
                        f_broken := false; f_closed := closed |} owners b) msg
      = Some ((msg ++ string_of_list_ascii (deliverable input))%string, ist')
      /\ is_good ist' = false.
Proof.
  induction input as [|c rest IH]; intros output closed owners b msg fuel Hfuel;
    (destruct fuel as [|fuel]; [cbn in Hfuel; lia|]); cbn [readLoop].
  - destruct (get_file_stop {| f_input := []; f_output := output;
                               f_broken := false; f_closed := closed |} owners b)
      as (ist' & -> & Hg); [right; left; reflexivity|].
    exists ist'. split; [|exact Hg].
    unfold deliverable. destruct char_is_signed; cbn; now rewrite append_nil_r.
  - destruct (char_is_signed && is_ff c) eqn:Hff.
    + destruct (get_file_stop {| f_input := c :: rest; f_output := output;
                                 f_broken := false; f_closed := closed |} owners b)
        as (ist' & -> & Hg);
        [right; right; exists c, rest; split; [reflexivity | exact Hff]|].
      exists ist'. split; [|exact Hg].
      apply andb_prop in Hff as [Hs Hc].
      unfold deliverable. rewrite Hs. cbn [before_ff]. rewrite Hc.
      cbn. now rewrite append_nil_r.
    + rewrite (get_file_byte {| f_input := c :: rest; f_output := output;
                                f_broken := false; f_closed := closed |}
                 owners b c rest eq_refl eq_refl Hff).
      cbn [f_output f_closed].
      destruct (IH output closed owners c (msg ++ String c "")%string fuel)
        as (ist' & -> & Hg); [cbn in Hfuel; lia|].
      exists ist'. split; [|exact Hg].
      f_equal. f_equal. rewrite append_assoc. f_equal.
      unfold deliverable. destruct char_is_signed; cbn [andb] in Hff.
      * cbn [before_ff]. rewrite Hff. reflexivity.
      * reflexivity.
Qed.

(** X2: the reading loop over a file takes every byte up to the end of the
    file where [char] is unsigned, and only the bytes before the first 0xFF
    where [char] is signed ([underflow] returns the byte as a [char], and
    0xFF is then [EOF]); from a file that fails it takes nothing.  It ends
    within one call of [get] more than the file has bytes, with the stream
    no longer good. *)
Theorem file_request_read (f : FILE) (owners : nat) (msg : string) (fuel : nat) :
  List.length (f_input f) < fuel ->
  exists ist',
    readLoop fuel (ReaderIStream_new f owners) msg
    = Some ((msg ++ (if f_broken f then ""
                     else string_of_list_ascii (deliverable (f_input f))))%string,
            ist')
    /\ is_good ist' = false.
Proof.
  intros Hfuel. destruct f as [input output broken closed].
  cbn [f_input f_broken] in *. destruct broken.
  - destruct fuel as [|fuel]; [lia|]. cbn [readLoop].
    destruct (get_file_stop {| f_input := input; f_output := output;
                               f_broken := true; f_closed := closed |} owners zero)
      as (ist' & Hget & Hg); [left; reflexivity|].
    change (ReaderIStream_new ?f owners) with (file_stream f owners zero).
    rewrite Hget. exists ist'. split; [|exact Hg]. now rewrite append_nil_r.
  - exact (readLoop_file_bytes input output closed owners zero msg fuel Hfuel).
Qed.
End FileReading.

Lemma file_request_read_witness :
  let input := ["a"%char; "b"%char; ascii_of_N 255; "c"%char] in
  exists ist',
    readLoop (P := x86) 5
      (file_stream {| f_input := input; f_output := []; f_broken := false;
                      f_closed := false |} 0 zero) ""
    = Some ("ab", ist')
    /\ is_good ist' = false.
Proof.
  intros input.
  destruct (@file_request_read x86
              {| f_input := input; f_output := []; f_broken := false;
                 f_closed := false |} 0 "" 5) as (ist' & H & Hg).
  - cbn. lia.
  - exists ist'. split; [exact H | exact Hg].
Defined.

Lemma xsputn_file (s : string) :
  forall (f : FILE) (owners : nat) (d : bool),
    f_broken f = false ->
    xsputn {| writer := true;
              writer_obj := {| target := f; other_owners := owners;
                               destroyed := d |} |} s
    = (Ok (String.length s),
       {| writer := true;
          writer_obj :=
            {| target := {| f_input := f_input f;
                            f_output := f_output f ++ list_ascii_of_string s;
                            f_broken := false; f_closed := f_closed f |};
               other_owners := owners; destroyed := d |} |}).
Proof.
  induction s as [|c s IH]; intros f owners d Hb.
  - cbn. rewrite app_nil_r. destruct f; cbn in *. now subst.
  - cbn [xsputn]. unfold overflow, putByteInternal.
    rewrite int_of_byte_not_eof, char_of_int_of_byte.
    cbn [writer negb writer_obj target writeByte FileWriter with_target
           other_owners destroyed].
    unfold FileWriter_writeByte. rewrite Hb.
    change (0 =? EOF)%Z with false. cbn iota. unfold with_target.
    cbn [target other_owners destroyed].
    rewrite IH by reflexivity.
    cbn [f_input f_output f_closed list_ascii_of_string String.length].
    now rewrite <- app_assoc.
Qed.

(** X3: a string inserted in a good stream over a file writer is appended to
    the file byte for byte, and the stream stays good; when the file fails,
    nothing is written and the stream is no longer good. *)
Theorem insert_into_file (s : string) (f : FILE) (owners : nat) :
  (f_broken f = false ->
   insert (WriterOStream_new f owners) s
   = WriterOStream_new
       {| f_input := f_input f;
          f_output := f_output f ++ list_ascii_of_string s;
          f_broken := false; f_closed := f_closed f |} owners)
  /\ (f_broken f = true -> s <> "" ->
      insert (WriterOStream_new f owners) s
      = {| os_sb := os_sb (WriterOStream_new f owners); os_good := false |}).
Proof.
  split.
  - intros Hb. unfold insert, WriterOStream_new. cbn [os_good os_sb negb].
    rewrite xsputn_file by exact Hb. now rewrite Nat.eqb_refl.
  - intros Hb Hs. destruct s as [|c s]; [contradiction|].
    unfold insert, WriterOStream_new. cbn [os_good os_sb negb xsputn].
    unfold overflow, putByteInternal.
    rewrite int_of_byte_not_eof.
    cbn [writer negb writer_obj target writeByte FileWriter].
    unfold FileWriter_writeByte. rewrite Hb. cbn.
    destruct f; cbn in *. now subst.
Qed.

Lemma insert_into_file_witness :
  insert (WriterOStream_new (file_of "") 0) "10"
  = WriterOStream_new
      {| f_input := []; f_output := ["1"%char; "0"%char]; f_broken := false;
         f_closed := false |} 0
  /\ insert (WriterOStream_new broken_file 0) "1"
     = {| os_sb := os_sb (WriterOStream_new broken_file 0); os_good := false |}.
Proof.
  split.
  - apply (proj1 (insert_into_file "10" (file_of "") 0)). reflexivity.
  - apply (proj2 (insert_into_file "1" broken_file 0)); [reflexivity | discriminate].
Defined.

Section StreamFacts.
Context {R W : Type} {HR : Reader R} {HW : Writer W} {P : Platform}.

Lemma insert_detached (os : WriterOStream W) (s : string) :
  writer (os_sb os) = false -> os_sb (insert os s) = os_sb os.
Proof.
  intros Hw. unfold insert. destruct (os_good os); [|reflexivity]. cbn [negb].
  destruct s as [|c s]; [reflexivity|].
  cbn [xsputn]. unfold overflow, putByteInternal.
  now rewrite int_of_byte_not_eof, Hw.
Qed.

Lemma close_detaches (os : WriterOStream W) :
  writer (os_sb (WriterOStream_close os)) = false.
Proof.
  unfold WriterOStream_close, WriterStreamBuf_close. cbn [os_sb].
  destruct (writer (os_sb os)) eqn:Hw; [reflexivity | exact Hw].
Qed.

(** X4: once a [WriterOStream] is closed, nothing that is inserted reaches the
    writer: whatever strings follow, the buffer and the writer stay as
    [close] left them; a non-empty string makes a good stream stop being
    good. *)
Theorem nothing_written_after_close (os : WriterOStream W) :
  (forall ss : list string,
     os_sb (fold_left insert ss (WriterOStream_close os))
     = os_sb (WriterOStream_close os))
  /\ (forall (c : ascii) (s : string),
        os_good os = true ->
        os_good (insert (WriterOStream_close os) (String c s)) = false).
Proof.
  split.
  - intros ss.
    assert (H : forall o : WriterOStream W,
               writer (os_sb o) = false ->
               os_sb (fold_left insert ss o) = os_sb o).
    { induction ss as [|s ss IH]; intros o Ho; [reflexivity|].
      cbn [fold_left]. rewrite IH; rewrite insert_detached by exact Ho; auto. }
    apply H, close_detaches.
  - intros c s Hg. unfold insert. cbn [WriterOStream_close os_good os_sb].
    rewrite Hg. cbn [negb xsputn]. unfold overflow, putByteInternal.
    rewrite int_of_byte_not_eof.
    pose proof (close_detaches os) as Hw. cbn [WriterOStream_close os_sb] in Hw.
    rewrite Hw. reflexivity.
Qed.

End StreamFacts.

Lemma nothing_written_after_close_witness :
  let os := WriterOStream_close (insert (WriterOStream_new (file_of "") 1) "1") in
  os_sb (fold_left insert ["late"; "later"] os) = os_sb os
  /\ os_good (insert os "x") = false.
Proof.
  intros os.
  pose proof (nothing_written_after_close
                (insert (WriterOStream_new (file_of "") 1) "1")) as [Hsb Hgood].
  split.
  - exact (Hsb ["late"; "later"]).
  - exact (Hgood "x"%char "" eq_refl).
Defined.

Section StreamFactsMore.
Context {R W : Type} {HR : Reader R} {HW : Writer W} {P : Platform}.

(** X5: whatever the reader or the writer raises, an [IOException] or not,
    [get] and [<<] return without raising and leave the stream not good; the
    buffer functions between them ([getByteInternal], [underflow],
    [putByteInternal]) let an exception that is not an [IOException]
    through. *)
Theorem stream_calls_absorb_exceptions :
  (forall (sb : ReaderStreamBuf R) (e : exn) (r' : R),
     reader sb = true -> avail sb = false ->
     readByte (target (reader_obj sb)) = (Throw e, r') ->
     let sb' := {| reader := true; reader_obj := with_target (reader_obj sb) r';
                   buffer := buffer sb; avail := false |} in
     ReaderIStream_get {| is_sb := sb; is_good := true |}
     = (None, {| is_sb := sb'; is_good := false |})
     /\ (isIOException e = false ->
         getByteInternal sb = (Throw e, sb') /\ underflow sb = (Throw e, sb')))
  /\ (forall (sb : WriterStreamBuf W) (c : ascii) (s : string) (e : exn) (w' : W),
        writer sb = true ->
        writeByte (target (writer_obj sb)) c = (Throw e, w') ->
        let sb' := {| writer := true;
                      writer_obj := with_target (writer_obj sb) w' |} in
        insert {| os_sb := sb; os_good := true |} (String c s)
        = {| os_sb := sb'; os_good := false |}
        /\ (isIOException e = false ->
            putByteInternal sb (int_of_byte c) = (Throw e, sb'))).
Proof.
  split.
  - intros sb e r' Hr Hav Hread sb'. subst sb'.
    unfold ReaderIStream_get, sbumpc, uflow, underflow, getByteInternal.
    cbn [is_good is_sb negb]. rewrite Hav, Hr, Hread. cbn [negb].
    destruct (isEOFException e) eqn:Heof.
    + destruct e; try discriminate. cbn. split; [reflexivity | discriminate].
    + destruct (isIOException e) eqn:Hio; cbn;
        (split; [reflexivity | intros; try discriminate; split; reflexivity]).
  - intros sb c s e w' Hw Hwrite sb'. subst sb'.
    unfold insert. cbn [os_good os_sb negb xsputn].
    unfold overflow, putByteInternal.
    rewrite int_of_byte_not_eof, char_of_int_of_byte, Hw, Hwrite. cbn [negb].
    destruct (isIOException e); cbn;
      (split; [reflexivity | intros; try discriminate; reflexivity]).
Qed.
End StreamFactsMore.

(** A reader and a writer that raise [std_exception] on every call. *)
Lemma stream_calls_absorb_exceptions_witness :
  let failing_reader : Reader unit :=
    {| readByte := fun u => (Throw (std_exception "bad alloc"), u);
       destroyReader := fun u => u |} in
  ReaderIStream_get (HR := failing_reader) (P := x86) (ReaderIStream_new tt 0)
  = (None, {| is_sb := is_sb (ReaderIStream_new tt 0); is_good := false |})
  /\ insert (WriterOStream_new broken_file 0) "1"
     = {| os_sb := os_sb (WriterOStream_new broken_file 0); os_good := false |}.
Proof.
  intros failing_reader.
  pose proof (@stream_calls_absorb_exceptions unit FILE failing_reader FileWriter x86)
    as [Hr Hw].
  split.
  - exact (proj1 (Hr (is_sb (ReaderIStream_new tt 0)) (std_exception "bad alloc") tt
                    eq_refl eq_refl eq_refl)).
  - exact (proj1 (Hw (os_sb (WriterOStream_new broken_file 0)) "1"%char ""
                    (IOException "IO Error : can't write to file") broken_file
                    eq_refl eq_refl)).
Defined.

(** ** Channel sources, further *)

Section ChannelSourcesMore.
Variables StreamRW Listener : Type.
Variable Listener_accept : Listener -> result StreamRW * Listener.

(** X6: a wrapper without next server stays exhausted: after its queue is
    drained, every call of [accept], however many follow, raises
    [NoStreamsLeftException] and leaves the wrapper as it is. *)
Theorem wrapper_stays_exhausted (streams : list StreamRW) (k : nat) :
  accepts Listener_accept (List.length streams + k)
    (@StreamServerWrapper StreamRW Listener streams None)
  = (map Ok streams ++ repeat (Throw NoStreamsLeftException) k,
     StreamServerWrapper [] None).
Proof.
  rewrite accepts_queue.
  assert (Hempty : accepts Listener_accept k
                     (@StreamServerWrapper StreamRW Listener [] None)
                   = (repeat (Throw NoStreamsLeftException) k,
                      StreamServerWrapper [] None)).
  { induction k as [|k IH]; [reflexivity|].
    cbn [accepts accept repeat]. now rewrite IH. }
  now rewrite Hempty.
Qed.

(** X7: a wrapper chained to another wrapper hands out what one wrapper over
    the two queues put end to end would: the same results, call after call,
    whatever follows them. *)
Theorem wrappers_chain (front back : list StreamRW)
    (next : option (StreamServer StreamRW Listener)) (n : nat) :
  fst (accepts Listener_accept n
         (StreamServerWrapper front (Some (StreamServerWrapper back next))))
  = fst (accepts Listener_accept n (StreamServerWrapper (front ++ back) next)).
Proof.
  revert n. induction front as [|c cs IH]; intros n.
  - now rewrite accepts_delegate.
  - destruct n as [|n]; [reflexivity|].
    cbn [accepts accept app].
    specialize (IH n).
    destruct (accepts Listener_accept n
                (StreamServerWrapper cs (Some (StreamServerWrapper back next)))).
    destruct (accepts Listener_accept n (StreamServerWrapper (cs ++ back) next)).
    cbn [fst] in *. now rewrite IH.
Qed.
End ChannelSourcesMore.

(** ** Exceptions *)

(** X8: building an [IOException] from an exception gives an exception that a
    handler for [IOException] takes; it keeps the message of an
    [IOException], so that building a second one from the first changes
    nothing, and puts "IO Error : " before any other message. *)
Theorem IOException_of_idempotent (e : exn) :
  isIOException (IOException_of e) = true
  /\ IOException_of (IOException_of e) = IOException_of e
  /\ (isIOException e = true -> what (IOException_of e) = what e)
  /\ (isIOException e = false ->
      what (IOException_of e) = ("IO Error : " ++ what e)%string).
Proof.
  unfold IOException_of. repeat split.
  - intros ->. reflexivity.
  - intros ->. reflexivity.
Qed.

Lemma IOException_of_idempotent_witness :
  what (IOException_of EOFException) = "IO Error : reached end of file"
  /\ what (IOException_of (std_exception "bad alloc")) = "IO Error : bad alloc".
Proof.
  split.
  - exact (proj1 (proj2 (proj2 (IOException_of_idempotent EOFException))) eq_refl).
  - exact (proj2 (proj2 (proj2 (IOException_of_idempotent (std_exception "bad alloc"))))
             eq_refl).
Defined.

(** ** The handler, further *)

Section HandlerMore.
Context {BM : BigMath} {CL : CLib}.
Variable cfg : Config.

(** X9: in an encrypted request, what follows the last newline is dropped
    without a trace: the request is handled as if it ended at that
    newline. *)
Theorem unterminated_block_dropped (blocks : list string) (tail : string) :
  Forall (fun b => lacks LF b = true) blocks -> lacks LF tail = true ->
  handleRequest cfg (String "1" (unlines blocks ++ tail))
  = handleRequest cfg (String "1" (unlines blocks)).
Proof.
  intros Hb Htail.
  pose proof (handleRequest_encrypted cfg blocks "" Hb eq_refl) as Hend.
  rewrite append_nil_r in Hend. rewrite Hend.
  now apply handleRequest_encrypted.
Qed.

(** X10: an encrypted request without any newline after its tag, the bare
    tag ['1'] included, holds no block: whatever the key and the library, it
    is rejected with ['0'] and "can't find device name". *)
Theorem encrypted_without_block_rejected (tail : string) :
  lacks LF tail = true ->
  handleRequest cfg (String "1" tail)
  = Some {| os_actions := [os_insert "0"];
            appended := [Error_ "can't find device name"]; dies := false |}.
Proof.
  intros Htail.
  exact (handleRequest_encrypted cfg [] tail (Forall_nil _) Htail).
Qed.

(** X11: the splitting loop loses nothing and cuts only at newlines: it ends
    for every message, each part is free of newlines and carries the time 0,
    and the parts, each followed by a newline, give the message back (the
    last part without its newline when the message does not end in one). *)
Theorem split_keeps_every_line (msg : string) :
  exists parts,
    splitLoop (S (String.length msg)) msg = Some parts
    /\ Forall (fun p => fst p = 0%Z /\ lacks LF (snd p) = true) parts
    /\ (msg = unlines (map snd parts)
        \/ exists init last,
             map snd parts = init ++ [last] /\ last <> ""
             /\ msg = (unlines init ++ last)%string).
Proof.
  destruct (lines_decompose msg) as (ls & tail & -> & Hls & Htail).
  exists (raw_parts (ls ++ last_part tail)).
  split; [apply splitLoop_lines; auto|].
  assert (Hsnd : forall l, map snd (raw_parts l) = l).
  { intros l. unfold raw_parts. rewrite map_map. cbn [snd]. apply map_id. }
  split.
  - unfold raw_parts. apply Forall_map. apply Forall_app. split.
    + eapply Forall_impl; [|exact Hls]. cbn. auto.
    + unfold last_part. destruct (tail =? "")%string; repeat constructor.
      exact Htail.
  - rewrite Hsnd. unfold last_part.
    destruct (String.eqb_spec tail "") as [->|Hne].
    + left. now rewrite app_nil_r, append_nil_r.
    + right. exists ls, tail. auto.
Qed.
End HandlerMore.

Lemma unterminated_block_dropped_witness :
  handleRequest (BM := sample_bigmath) (CL := sample_clib) sample_key
    (String "1" (unlines [block_dev_line] ++ block_bad))
  = handleRequest (BM := sample_bigmath) (CL := sample_clib) sample_key
      (String "1" (unlines [block_dev_line])).
Proof.
  apply (@unterminated_block_dropped sample_bigmath sample_clib sample_key);
    [repeat constructor | reflexivity].
Defined.

Lemma encrypted_without_block_rejected_witness :
  handleRequest (BM := sample_bigmath) (CL := sample_clib) no_key (String "1" "")
  = Some {| os_actions := [os_insert "0"];
            appended := [Error_ "can't find device name"]; dies := false |}.
Proof.
  apply (@encrypted_without_block_rejected sample_bigmath sample_clib no_key).
  reflexivity.
Defined.

(** ** Timestamps, further *)

(** On a field of digits, the extraction stores the number that the digits
    denote, or the largest [time_t] when the number is above it. *)
Lemma extract_hex_digits (field : string) (t : Z) :
  hex_field field = true ->
  extract_hex field t
  = if (hex_number field >? LONG_MAX)%Z then LONG_MAX else hex_number field.
Proof.
  destruct field as [|c s]; [discriminate|]. intros Hf.
  change (hex_digits (String c s) = true) in Hf.
  pose proof Hf as Hcs. simpl in Hcs.
  destruct (hex_digit c) as [d|] eqn:Hd; [|discriminate].
  unfold extract_hex. cbn [skipws]. rewrite (hex_digit_not_space c d Hd).
  unfold num_get_hex.
  rewrite (hex_digit_not c "-" d Hd eq_refl), (hex_digit_not c "+" d Hd eq_refl).
  assert (Hs2 : match String c s with
                | String c0 (String x s') =>
                    if ((c0 =? "0")%char && ((x =? "x")%char || (x =? "X")%char))%bool
                    then s' else String c s
                | _ => String c s
                end = String c s).
  { destruct s as [|x s']; [reflexivity|]. simpl in Hcs.
    destruct (hex_digit x) as [dx|] eqn:Hx; [|discriminate].
    rewrite (hex_digit_not x "x" dx Hx eq_refl), (hex_digit_not x "X" dx Hx eq_refl).
    now rewrite andb_false_r. }
  rewrite Hs2, (hex_accumulate_number _ Hf). cbn [Nat.add String.length].
  now rewrite Z.mul_0_l, Z.add_0_l.
Qed.

(** X12: an event line whose first field cannot be read as a number still
    loses that field and the space after it.  When the field starts with a
    character that is neither white space, a sign nor a hexadecimal digit,
    the time of the event is 0, whatever the clock; when the line starts with
    the space, the time is the one of the clock. *)
Theorem unreadable_field_is_dropped (now : Z) :
  (forall (c : ascii) (field rest : string),
     isspace c = false -> c <> "-"%char -> c <> "+"%char ->
     hex_digit c = None -> lacks SP field = true ->
     stamp now (0%Z, (String c field ++ String SP rest)%string) = (0%Z, rest))
  /\ (forall rest : string,
        stamp now (0%Z, String SP rest) = (now, rest)).
Proof.
  split; [|reflexivity].
  intros c field rest Hsp Hm Hp Hd Hfield.
  assert (Hc : lacks SP (String c field) = true).
  { cbn [lacks]. rewrite Hfield, andb_true_r. apply negb_true_iff.
    destruct (Ascii.eqb_spec c SP) as [->|]; [discriminate | reflexivity]. }
  unfold stamp. cbn [snd].
  rewrite (find_first_of_hit _ _ _ Hc), substr_prefix, substr_from_line.
  f_equal. unfold extract_hex. cbn [skipws]. rewrite Hsp.
  unfold num_get_hex.
  apply Ascii.eqb_neq in Hm, Hp. rewrite Hm, Hp.
  assert (H0 : (c =? "0")%char = false).
  { destruct (Ascii.eqb_spec c "0") as [->|]; [discriminate | reflexivity]. }
  destruct field as [|x s']; cbn [hex_accumulate]; rewrite ?H0; cbn [andb];
    cbn [hex_accumulate]; now rewrite Hd.
Qed.

(** X13: a timestamp field of hexadecimal digits whose value is above the
    largest [time_t] gives that largest value, not the value written. *)
Theorem oversized_timestamp_clamped (now : Z) (field rest : string) :
  hex_field field = true -> (LONG_MAX < hex_number field)%Z ->
  stamp now (0%Z, (field ++ String SP rest)%string) = (LONG_MAX, rest).
Proof.
  intros Hf Hbig. unfold stamp. cbn [snd].
  rewrite (find_first_of_hit _ _ _ (hex_digits_lack_space _ (hex_field_digits _ Hf))).
  rewrite substr_prefix, substr_from_line, (extract_hex_digits _ _ Hf).
  destruct (Z.gtb_spec (hex_number field) LONG_MAX); [reflexivity | lia].
Qed.

Lemma unreadable_field_is_dropped_witness :
  stamp 1700000000 (0%Z, "open door") = (0%Z, "door").
Proof.
  apply (proj1 (unreadable_field_is_dropped 1700000000) "o"%char "pen" "door");
    try reflexivity; discriminate.
Defined.

Lemma oversized_timestamp_clamped_witness :
  stamp 5 (0%Z, "fffffffffffffffff late") = (9223372036854775807%Z, "late").
Proof.
  apply (oversized_timestamp_clamped 5 "fffffffffffffffff" "late");
    [reflexivity | vm_compute; reflexivity].
Defined.

Lemma hex_accumulate_stops (digits : string) (c : ascii) (junk : string) :
  hex_digits digits = true -> hex_digit c = None ->
  forall (count : nat) (acc : Z),
    hex_accumulate (digits ++ String c junk) count acc
    = hex_accumulate digits count acc.
Proof.
  intros Hd Hc. induction digits as [|x s IH]; intros count acc.
  - cbn. now rewrite Hc.
  - cbn [append hex_accumulate]. cbn [hex_digits] in Hd.
    destruct (hex_digit x); [|discriminate]. now apply IH.
Qed.

(** X14: a first field that only starts with hexadecimal digits is read as
    far as the digits go: the event gets the number these digits denote
    (when it fits [time_t]) as its time, whatever follows them in the field,
    and the whole field is dropped from the description. *)
Theorem leading_digits_are_the_timestamp (now : Z) (digits : string) (c : ascii)
    (junk rest : string) :
  hex_field digits = true -> (hex_number digits <= LONG_MAX)%Z ->
  hex_digit c = None -> c <> "x"%char -> c <> "X"%char ->
  lacks SP (String c junk) = true ->
  stamp now (0%Z, ((digits ++ String c junk) ++ String SP rest)%string)
  = (hex_number digits, rest).
Proof.
  intros Hf Hmax Hc Hx HX Hjunk.
  pose proof (hex_field_digits _ Hf) as Hd.
  assert (Hsp : lacks SP (digits ++ String c junk) = true).
  { clear Hf Hmax. induction digits as [|y s IH]; [exact Hjunk|].
    cbn [append lacks]. cbn [hex_digits] in Hd.
    destruct (hex_digit y) as [dy|] eqn:Hy; [|discriminate].
    rewrite (hex_digit_not y SP dy Hy eq_refl). cbn [negb andb]. now apply IH. }
  unfold stamp. cbn [snd].
  rewrite (find_first_of_hit _ _ _ Hsp), substr_prefix, substr_from_line.
  f_equal.
  destruct digits as [|y s]; [discriminate|].
  pose proof Hd as Hys. cbn [hex_digits] in Hys.
  destruct (hex_digit y) as [dy|] eqn:Hy; [|discriminate].
  unfold extract_hex. cbn [append skipws]. rewrite (hex_digit_not_space y dy Hy).
  unfold num_get_hex.
  rewrite (hex_digit_not y "-" dy Hy eq_refl), (hex_digit_not y "+" dy Hy eq_refl).
  assert (Hs2 : match String y (s ++ String c junk) with
                | String c0 (String x s') =>
                    if ((c0 =? "0")%char && ((x =? "x")%char || (x =? "X")%char))%bool
                    then s' else String y (s ++ String c junk)
                | _ => String y (s ++ String c junk)
                end = String y (s ++ String c junk)).
  { destruct s as [|x s']; cbn [append].
    - apply Ascii.eqb_neq in Hx, HX. now rewrite Hx, HX, andb_false_r.
    - cbn [hex_digits] in Hys.
      destruct (hex_digit x) as [dx|] eqn:Hdx; [|discriminate].
      rewrite (hex_digit_not x "x" dx Hdx eq_refl), (hex_digit_not x "X" dx Hdx eq_refl).
      now rewrite andb_false_r. }
  rewrite Hs2.
  change (String y (s ++ String c junk)) with (String y s ++ String c junk)%string.
  rewrite (hex_accumulate_stops _ _ _ Hd Hc), (hex_accumulate_number _ Hd).
  cbn [Nat.add String.length]. rewrite Z.mul_0_l, Z.add_0_l.
  destruct (Z.gtb_spec (hex_number (String y s)) LONG_MAX); [lia | reflexivity].
Qed.

Lemma leading_digits_are_the_timestamp_witness :
  stamp 1700000000 (0%Z, "door opened") = (13%Z, "opened").
Proof.
  apply (leading_digits_are_the_timestamp 1700000000 "d" "o"%char "or" "opened");
    try reflexivity; discriminate.
Defined.

(** ** The block format *)

Lemma block_value_split (q : N) :
  ((q * checkSumModulus + q mod checkSumModulus) / checkSumModulus = q
   /\ (q * checkSumModulus + q mod checkSumModulus) mod checkSumModulus
      = q mod checkSumModulus)%N.
Proof.
  assert (Hm : checkSumModulus <> 0%N) by discriminate.
  pose proof (N.mod_upper_bound q checkSumModulus Hm) as Hlt.
  split.
  - rewrite N.add_comm, N.div_add by exact Hm.
    now rewrite N.div_small, N.add_0_l by exact Hlt.
  - rewrite N.add_comm, N.Div0.mod_add. now apply N.mod_small.
Qed.

Section BlockFormat.
Context {BM : BigMath}.
Variable cfg : Config.

(** X15: the block format round trip.  A block that the library decodes to
    the quotient [payload * 2^64 + random] (with [random] below [2^64])
    times the checksum modulus, plus that quotient modulo the checksum
    modulus, passes the check and gives back the bytes of [payload]: the
    random bits and the checksum leave no trace. *)
Theorem block_round_trip (block : string) (payload random : N) :
  (random < 2 ^ randomBitCount)%N ->
  decodeBlock cfg block = Ok (sample_block_value payload random) ->
  decryptBlock cfg block = Ok (toByteString payload).
Proof.
  intros Hr Hd. unfold decryptBlock, divMod. rewrite Hd.
  unfold sample_block_value.
  destruct (block_value_split (N.shiftl payload randomBitCount + random)) as [-> ->].
  rewrite N.eqb_refl. cbn [negb]. do 2 f_equal.
  rewrite N.shiftr_div_pow2, N.shiftl_mul_pow2.
  rewrite N.add_comm, N.div_add by (apply N.pow_nonzero; discriminate).
  now rewrite N.div_small, N.add_0_l by exact Hr.
Qed.

(** X16: among the values with one quotient by the checksum modulus, exactly
    one passes the check of line 60: the one whose remainder is the quotient
    modulo the checksum modulus. *)
Theorem one_remainder_passes (q r : N) :
  (r < checkSumModulus)%N ->
  checksum_matches (q * checkSumModulus + r) = true
  <-> r = (q mod checkSumModulus)%N.
Proof.
  intros Hr. unfold checksum_matches, divMod.
  assert (Hm : checkSumModulus <> 0%N) by discriminate.
  rewrite N.add_comm, N.div_add, N.Div0.mod_add by exact Hm.
  rewrite N.div_small, N.mod_small, N.add_0_l by exact Hr.
  apply N.eqb_eq.
Qed.
End BlockFormat.

Lemma block_round_trip_witness :
  decryptBlock (BM := sample_bigmath) sample_key block_dev_line
  = Ok (toByteString (BigMath := sample_bigmath) 1684370954%N).
Proof.
  apply (@block_round_trip sample_bigmath sample_key block_dev_line 1684370954 12345);
    vm_compute; reflexivity.
Defined.

Lemma one_remainder_passes_witness :
  checksum_matches (5 * checkSumModulus + 5) = true
  /\ checksum_matches (5 * checkSumModulus + 6) <> true.
Proof.
  split.
  - apply (proj2 (one_remainder_passes 5 5 eq_refl)). reflexivity.
  - intros H. apply (proj1 (one_remainder_passes 5 6 eq_refl)) in H. discriminate.
Defined.

(** ** Ownership through a run *)

Section Ownership.
Context {R W : Type} {HR : Reader R} {HW : Writer W} {P : Platform}.

(** [get] calls the reader and nothing else: it neither resets the pointer
    of the buffer nor changes who shares the reader. *)
Lemma get_keeps_ownership (ist : ReaderIStream R) :
  let sb := is_sb (snd (ReaderIStream_get ist)) in
  reader sb = reader (is_sb ist)
  /\ other_owners (reader_obj sb) = other_owners (reader_obj (is_sb ist))
  /\ destroyed (reader_obj sb) = destroyed (reader_obj (is_sb ist)).
Proof.
  destruct ist as [[rd obj b av] good].
  unfold ReaderIStream_get, sbumpc, uflow, underflow, getByteInternal.
  cbn [is_sb is_good avail reader reader_obj buffer].
  destruct good, av, rd; cbn [negb];
    try destruct (readByte (target obj)) as [[x|e] r'];
    repeat match goal with
           | |- context [if ?c then _ else _] => destruct c; cbn [buffer]
           end; cbn; auto.
Qed.

Lemma readLoop_keeps_ownership (fuel : nat) :
  forall (ist ist' : ReaderIStream R) (msg msg' : string),
    readLoop fuel ist msg = Some (msg', ist') ->
    reader (is_sb ist') = reader (is_sb ist)
    /\ other_owners (reader_obj (is_sb ist'))
       = other_owners (reader_obj (is_sb ist))
    /\ destroyed (reader_obj (is_sb ist')) = destroyed (reader_obj (is_sb ist)).
Proof.
  induction fuel as [|fuel IH]; intros ist ist' msg msg'; [discriminate|].
  cbn [readLoop]. pose proof (get_keeps_ownership ist) as Hget.
  destruct (ReaderIStream_get ist) as [[ch|] ist1]; cbn [snd] in Hget.
  - intros Hloop. destruct (IH _ _ _ _ Hloop) as (H1 & H2 & H3).
    destruct Hget as (G1 & G2 & G3). repeat split; congruence.
  - intros [= _ <-]. exact Hget.
Qed.

Lemma xsputn_keeps_ownership (s : string) :
  forall sb : WriterStreamBuf W,
    let sb' := snd (xsputn sb s) in
    writer sb' = writer sb
    /\ other_owners (writer_obj sb') = other_owners (writer_obj sb)
    /\ destroyed (writer_obj sb') = destroyed (writer_obj sb).
Proof.
  induction s as [|c s IH]; intros sb; [cbn; auto|].
  cbn [xsputn]. unfold overflow, putByteInternal.
  rewrite int_of_byte_not_eof.
  destruct (writer sb) eqn:Hw; cbn [negb].
  - destruct (writeByte (target (writer_obj sb)) (char_of_int (int_of_byte c)))
      as [[u|e] w'].
    + change (0 =? EOF)%Z with false. cbn iota.
      specialize (IH {| writer := true; writer_obj := with_target (writer_obj sb) w' |}).
      destruct (xsputn _ s) as [[n|e] sb2]; cbn [snd] in *;
        destruct IH as (H1 & H2 & H3); cbn in H1, H2, H3; repeat split; congruence.
    + destruct (isIOException e); cbn; auto.
  - cbn. auto.
Qed.

(** [<<] calls the writer and nothing else: it neither resets the pointer of
    the buffer nor changes who shares the writer. *)
Lemma insert_keeps_ownership (os : WriterOStream W) (s : string) :
  writer (os_sb (insert os s)) = writer (os_sb os)
  /\ other_owners (writer_obj (os_sb (insert os s)))
     = other_owners (writer_obj (os_sb os))
  /\ destroyed (writer_obj (os_sb (insert os s)))
     = destroyed (writer_obj (os_sb os)).
Proof.
  unfold insert. destruct (os_good os); cbn [negb]; [|auto].
  pose proof (xsputn_keeps_ownership s (os_sb os)) as H.
  destruct (xsputn (os_sb os) s) as [[n|e] sb']; exact H.
Qed.
End Ownership.

Section RunFacts.
Context {BM : BigMath} {CL : CLib}.
Variable cfg : Config.
Context {R W L : Type} {HR : Reader R} {HW : Writer W} {HL : LogStream L}
        {P : Platform}.

Lemma connectionHandler_inv (fuel : nat) (ist ist' : ReaderIStream R)
    (os os' : WriterOStream W) (messages messages' : string) :
  connectionHandler cfg fuel ist os messages = Some (ist', os', messages') ->
  exists msg ist1 o,
    readLoop fuel ist "" = Some (msg, ist1)
    /\ handleRequest cfg msg = Some o
    /\ dies o = false
    /\ ist' = ReaderIStream_close ist1
    /\ os' = apply_os os (os_actions o)
    /\ messages' = (messages ++ messages_text (appended o))%string.
Proof.
  unfold connectionHandler.
  destruct (readLoop fuel ist "") as [[msg ist1]|]; [|discriminate].
  destruct (handleRequest cfg msg) as [o|] eqn:Ho; [|discriminate].
  destruct (dies o) eqn:Hdies; [discriminate|].
  intros [= <- <- <-]. exists msg, ist1, o. auto 6.
Qed.

Lemma reader_close_detaches (ist : ReaderIStream R) :
  reader (is_sb (ReaderIStream_close ist)) = false.
Proof.
  unfold ReaderIStream_close, ReaderStreamBuf_close. cbn [is_sb].
  destruct (reader (is_sb ist)) eqn:Hr; [reflexivity | exact Hr].
Qed.

(** X17: every run of the handler that returns leaves [is] without its
    reader.  It leaves [os] without its writer exactly after an acceptance;
    after a rejection [os] still holds the writer it had, so that the caller
    decides when the channel is let go. *)
Theorem adapters_after_run (fuel : nat) (ist ist' : ReaderIStream R)
    (os os' : WriterOStream W) (messages messages' : string) :
  connectionHandler cfg fuel ist os messages = Some (ist', os', messages') ->
  reader (is_sb ist') = false
  /\ exists msg ist1 o,
       readLoop fuel ist "" = Some (msg, ist1)
       /\ handleRequest cfg msg = Some o
       /\ ((reply_of o = "0" /\ writer (os_sb os') = writer (os_sb os)
            /\ writer_obj (os_sb os') = writer_obj (os_sb (insert os "0")))
           \/ (reply_of o = "1" /\ writer (os_sb os') = false)).
Proof.
  intros Hrun.
  destruct (connectionHandler_inv _ _ _ _ _ _ _ Hrun)
    as (msg & ist1 & o & Hread & Ho & _ & -> & -> & _).
  split; [apply reader_close_detaches|].
  exists msg, ist1, o. split; [exact Hread|]. split; [exact Ho|].
  destruct (handleRequest_shape cfg msg o Ho) as [[reason ->] | [Hacc _]].
  - left. cbn [reject os_actions apply_os reply_of].
    destruct (insert_keeps_ownership os "0") as (Hw & _). auto.
  - right. unfold reply_of. rewrite Hacc. cbn [apply_os].
    split; [reflexivity | apply close_detaches].
Qed.

Lemma release_destroyed {T : Type} (destroy : T -> T) (s : shared T) :
  destroyed s = false ->
  destroyed (release destroy s) = (other_owners s =? 0)%nat
  /\ other_owners (release destroy s) = other_owners s.
Proof.
  intros Hd. unfold release. destruct (other_owners s) eqn:Hn; cbn; auto.
Qed.

Lemma owners_after_reset_zero (stream : StreamRWWrapper R W) (n : nat) :
  (owners_after_reset stream n =? 0)%nat = (n =? 0)%nat && (stream_owners stream =? 0)%nat.
Proof.
  unfold owners_after_reset. destruct (stream_owners stream); cbn.
  - now rewrite andb_true_r.
  - now rewrite andb_false_r.
Qed.

(** X18: when [connectionThreadFn] returns, no adapter holds the reader or
    the writer any more, after a rejection as after an acceptance: each of
    them was destroyed exactly when neither it nor the channel had another
    owner.  While the caller keeps its pointer to the channel, as [main]
    does, neither is destroyed: the [os.close()] of the handler does not close
    the writer.  The log received the messages of this request, and nothing
    else, before the flush. *)
Theorem thread_releases_adapters (fuel : nat) (stream : StreamRWWrapper R W)
    (log : L) (res : thread_result R W L) :
  connectionThreadFn cfg fuel stream log = Some res ->
  destroyed (reader_left res)
  = (reader_owners stream =? 0)%nat && (stream_owners stream =? 0)%nat
  /\ destroyed (writer_left res)
     = (writer_owners stream =? 0)%nat && (stream_owners stream =? 0)%nat
  /\ other_owners (reader_left res)
     = owners_after_reset stream (reader_owners stream)
  /\ other_owners (writer_left res)
     = owners_after_reset stream (writer_owners stream)
  /\ (stream_owners stream <> 0 ->
      destroyed (reader_left res) = false /\ destroyed (writer_left res) = false)
  /\ exists msg ist1 o,
       readLoop fuel (ReaderIStream_new (preaderInternal stream)
                        (owners_after_reset stream (reader_owners stream))) ""
       = Some (msg, ist1)
       /\ handleRequest cfg msg = Some o
       /\ log_left res = log_flush (log_insert log (messages_text (appended o))).
Proof.
  unfold connectionThreadFn.
  destruct (connectionHandler cfg fuel _ _ "") as [[[ist' os'] messages]|] eqn:Hrun;
    [|discriminate].
  intros [= <-]. cbn [reader_left writer_left log_left].
  destruct (connectionHandler_inv _ _ _ _ _ _ _ Hrun)
    as (msg & ist1 & o & Hread & Ho & _ & -> & -> & ->).
  destruct (readLoop_keeps_ownership _ _ _ _ _ Hread) as (Rw & Ro & Rd).
  cbn [ReaderIStream_new is_sb reader reader_obj other_owners destroyed] in Rw, Ro, Rd.
  assert (Hreader :
            reader_obj (ReaderStreamBuf_close (is_sb (ReaderIStream_close ist1)))
            = release destroyReader (reader_obj (is_sb ist1))).
  { unfold ReaderIStream_close, ReaderStreamBuf_close. cbn [is_sb].
    rewrite Rw. reflexivity. }
  assert (Hwriter :
            exists c : string,
              writer_obj (WriterStreamBuf_close (os_sb (apply_os
                 (WriterOStream_new (pwriterInternal stream)
                    (owners_after_reset stream (writer_owners stream)))
                 (os_actions o))))
              = release destroyWriter
                  (writer_obj (os_sb (insert
                     (WriterOStream_new (pwriterInternal stream)
                        (owners_after_reset stream (writer_owners stream))) c)))).
  { destruct (handleRequest_shape cfg msg o Ho) as [[reason ->] | [Hacc _]].
    - exists "0". cbn [reject os_actions apply_os].
      unfold WriterOStream_close, WriterStreamBuf_close. cbn [os_sb].
      destruct (insert_keeps_ownership
                  (WriterOStream_new (pwriterInternal stream)
                     (owners_after_reset stream (writer_owners stream))) "0")
        as (-> & _). reflexivity.
    - exists "1". rewrite Hacc. cbn [apply_os].
      unfold WriterOStream_close, WriterStreamBuf_close. cbn [os_sb].
      destruct (insert_keeps_ownership
                  (WriterOStream_new (pwriterInternal stream)
                     (owners_after_reset stream (writer_owners stream))) "1")
        as (-> & _). reflexivity. }
  destruct Hwriter as [c Hwriter]. rewrite Hreader, Hwriter.
  destruct (insert_keeps_ownership
              (WriterOStream_new (pwriterInternal stream)
                 (owners_after_reset stream (writer_owners stream))) c)
    as (_ & Wo & Wd).
  cbn [WriterOStream_new os_sb writer_obj other_owners destroyed] in Wo, Wd.
  destruct (release_destroyed destroyReader _ Rd) as [Hrd Hro].
  destruct (release_destroyed destroyWriter _ Wd) as [Hwd Hwo].
  rewrite Hrd, Hro, Hwd, Hwo, Ro, Wo, !owners_after_reset_zero.
  repeat split.
  - destruct (stream_owners stream); [contradiction|]. now rewrite andb_false_r.
  - destruct (stream_owners stream); [contradiction|]. now rewrite andb_false_r.
  - exists msg, ist1, o. repeat split; assumption.
Qed.
End RunFacts.

Lemma adapters_after_run_witness :
  match connectionHandler (BM := sample_bigmath) (CL := sample_clib) (P := x86)
          no_key 2 (ReaderIStream_new (file_of "2") 1)
          (WriterOStream_new (file_of "") 1) "" with
  | Some (ist', os', _) =>
      reader (is_sb ist') = false /\ writer (os_sb os') = true
  | None => False
  end.
Proof.
  destruct (connectionHandler (BM := sample_bigmath) (CL := sample_clib) (P := x86)
              no_key 2 (ReaderIStream_new (file_of "2") 1)
              (WriterOStream_new (file_of "") 1) "")
    as [[[ist' os'] m']|] eqn:Hrun; [|vm_compute in Hrun; discriminate].
  destruct (@adapters_after_run sample_bigmath sample_clib no_key FILE FILE
              FileReader FileWriter x86 _ _ _ _ _ _ _ Hrun)
    as (Hr & _).
  split; [exact Hr|].
  vm_compute in Hrun. injection Hrun as _ <- _. reflexivity.
Defined.

Lemma thread_releases_adapters_witness :
  match connectionThreadFn (BM := sample_bigmath) (CL := sample_clib)
          (HL := text_log) (P := x86) no_key 10
          {| preaderInternal := file_of ("0dev" ++ String LF "");
             pwriterInternal := file_of "";
             reader_owners := 0; writer_owners := 0; stream_owners := 1 |}
          "" with
  | Some res =>
      destroyed (writer_left res) = (0 =? 0)%nat && (1 =? 0)%nat
      /\ destroyed (reader_left res) = (0 =? 0)%nat && (1 =? 0)%nat
  | None => False
  end.
Proof.
  destruct (connectionThreadFn (BM := sample_bigmath) (CL := sample_clib)
              (HL := text_log) (P := x86) no_key 10
              {| preaderInternal := file_of ("0dev" ++ String LF "");
                 pwriterInternal := file_of "";
                 reader_owners := 0; writer_owners := 0; stream_owners := 1 |} "")
    as [res|] eqn:Hrun; [|vm_compute in Hrun; discriminate].
  destruct (@thread_releases_adapters sample_bigmath sample_clib no_key FILE FILE
              string FileReader FileWriter text_log x86 _ _ _ _ Hrun)
    as (Hr & Hw & _).
  split; [exact Hw | exact Hr].
Defined.

(** ** The loop of [main] *)

Section AcceptLoop.
Context {BM : BigMath} {CL : CLib}.
Variable cfg : Config.
Context {W L Listener : Type} {HW : Writer W} {HL : LogStream L} {P : Platform}.
Variable Listener_accept : Listener -> result (StreamRWWrapper FILE W) * Listener.


End AcceptLoop.


(** ** When a request is accepted *)

Section Acceptance.
Context {BM : BigMath} {CL : CLib}.
Variable cfg : Config.

Lemma parseBody_reply (msg : string) :
  exists o, parseBody cfg msg = Some o
            /\ reply_of o = if lacks LF msg then "0" else "1".
Proof.
  destruct (parseBody_total cfg msg) as [o Ho]. exists o. split; [exact Ho|].
  destruct (lacks LF msg) eqn:Hl.
  - rewrite (parseBody_no_newline cfg msg Hl) in Ho. now injection Ho as <-.
  - destruct (parseBody_shape cfg msg o Ho) as [-> | [Hacc _]].
    + unfold parseBody in Ho.
      destruct (find_first_of msg LF 0) as [n|] eqn:Hf.
      * destruct (takeStats _) as [stats rest].
        destruct (splitLoop _ rest); [destruct (emit _ _)|]; discriminate.
      * apply find_first_of_none_lacks in Hf. congruence.
    + unfold reply_of. now rewrite Hacc.
Qed.

(** X20: the test for acceptance is the newline that ends the device name,
    and nothing else in the body.  Without a key, a request with the tag
    ['0'] is answered ['1'] exactly when its body holds a newline, whatever
    the device name, the stats and the events are; a request with the tag
    ['1'] is answered ['1'] exactly when every block passes and the bytes of
    the blocks together hold a newline. *)
Theorem acceptance_criterion :
  (forall body : string,
     decryptionModulus cfg = 0%N ->
     exists o, handleRequest cfg (String "0" body) = Some o
               /\ (reply_of o = "1" <-> lacks LF body = false))
  /\ (forall (blocks : list string) (tail : string),
        Forall (fun b => lacks LF b = true) blocks -> lacks LF tail = true ->
        exists o, handleRequest cfg (String "1" (unlines blocks ++ tail)) = Some o
                  /\ (reply_of o = "1"
                      <-> exists payloads,
                            Forall2 (block_passes cfg) blocks payloads
                            /\ lacks LF (join payloads) = false)).
Proof.
  split.
  - intros body Hkey.
    destruct (parseBody_reply body) as (o & Ho & Hreply). exists o. split.
    + unfold handleRequest.
      cbn [String.length Nat.ltb Nat.leb String.get substr_from].
      rewrite Hkey. exact Ho.
    + rewrite Hreply. destruct (lacks LF body); split; congruence.
  - intros blocks tail Hb Htail.
    rewrite handleRequest_encrypted by assumption.
    destruct (decryptAll cfg blocks "") as [plain|e] eqn:Hall.
    + destruct (decryptAll_ok cfg _ _ _ Hall) as (ps & Hps & Hplain).
      cbn [append] in Hplain. subst plain.
      destruct (parseBody_reply (join ps)) as (o & Ho & Hreply).
      exists o. split; [exact Ho|]. rewrite Hreply. split.
      * intros H. exists ps. split; [exact Hps|].
        destruct (lacks LF (join ps)); [discriminate | reflexivity].
      * intros (ps' & Hps' & Hl).
        pose proof (decryptAll_pass cfg _ _ Hps' "") as Hall'.
        rewrite Hall in Hall'. injection Hall' as Heq. cbn [append] in Heq.
        rewrite Heq, Hl. reflexivity.
    + eexists. split; [reflexivity|]. cbn. split; [discriminate|].
      intros (ps & Hps & _).
      rewrite (decryptAll_pass cfg _ _ Hps "") in Hall. discriminate.
Qed.
End Acceptance.

Lemma acceptance_criterion_witness :
  exists o,
    handleRequest (BM := sample_bigmath) (CL := sample_clib) no_key
      (String "0" (String LF "")) = Some o
    /\ (reply_of o = "1" <-> lacks LF (String LF "") = false).
Proof.
  exact (proj1 (@acceptance_criterion sample_bigmath sample_clib no_key)
           (String LF "") eq_refl).
Defined.

(** ** A time that [localtime] does not convert *)

Section FatalTime.
Context {BM : BigMath} {CL : CLib}.
Variable cfg : Config.
Context {R W L : Type} {HR : Reader R} {HW : Writer W} {HL : LogStream L}
        {P : Platform}.

(** X21: line 130 passes what [localtime] returns to [strftime] unchecked.
    An unencrypted request with an event line whose time [localtime] does
    not convert is accepted, ['1'] is written and [os] is closed, and the run
    then dies: the handler does not return, neither does
    [connectionThreadFn], and the log receives nothing of the request. *)
Theorem unconvertible_time_is_fatal :
  forall (deviceName stats : string) (events : list string) (tail : string),
    decryptionModulus cfg = 0%N ->
    lacks LF deviceName = true -> lacks LF stats = true ->
    Forall (fun e => lacks LF e = true) events -> lacks LF tail = true ->
    time_out_of_range (events ++ last_part tail) ->
    let request :=
      String "0" (deviceName ++ String LF (stats ++ String LF (unlines events ++ tail))) in
    (exists o, handleRequest cfg request = Some o
               /\ os_actions o = [os_insert "1"; os_close]
               /\ dies o = true)
    /\ (forall (fuel : nat) (ist ist' : ReaderIStream R) (os : WriterOStream W)
               (messages : string),
          readLoop fuel ist "" = Some (request, ist') ->
          connectionHandler cfg fuel ist os messages = None)
    /\ (forall (fuel : nat) (stream : StreamRWWrapper R W) (log : L)
               (ist' : ReaderIStream R),
          readLoop fuel
            (ReaderIStream_new (preaderInternal stream)
               (owners_after_reset stream (reader_owners stream))) ""
          = Some (request, ist') ->
          connectionThreadFn (HL := HL) cfg fuel stream log = None).
Proof.
  intros deviceName stats events tail Hkey HD HS Hev Htail Hout request.
  assert (Hreq : handleRequest cfg request
                 = Some {| os_actions := [os_insert "1"; os_close];
                           appended := info_messages cfg deviceName
                                       ++ event_messages deviceName
                                            (events ++ last_part tail);
                           dies := true |}).
  { unfold request, handleRequest.
    cbn [String.length Nat.ltb Nat.leb String.get substr_from].
    rewrite Hkey. cbn [N.eqb negb].
    rewrite (parseBody_stats_events cfg deviceName stats events tail HD HS Hev Htail).
    unfold events_die. now rewrite (emit_out_of_range deviceName _ Hout). }
  split; [eexists; split; [exact Hreq | split; reflexivity]|].
  assert (Hrun : forall (fuel : nat) (ist ist' : ReaderIStream R)
                        (os : WriterOStream W) (messages : string),
             readLoop fuel ist "" = Some (request, ist') ->
             connectionHandler cfg fuel ist os messages = None).
  { intros fuel ist ist' os messages Hread.
    unfold connectionHandler. now rewrite Hread, Hreq. }
  split; [exact Hrun|].
  intros fuel stream log ist' Hread. unfold connectionThreadFn.
  now rewrite (Hrun fuel _ ist' _ "" Hread).
Qed.
End FatalTime.

Lemma unconvertible_time_is_fatal_witness :
  exists o,
    handleRequest (BM := sample_bigmath) (CL := sample_clib) no_key
      (String "0" ("dev" ++ String LF ("" ++ String LF
         (unlines [] ++ "fffffffffffffffff late"))))
    = Some o
    /\ os_actions o = [os_insert "1"; os_close]
    /\ dies o = true.
Proof.
  refine (proj1 (@unconvertible_time_is_fatal sample_bigmath sample_clib no_key
                   FILE FILE string FileReader FileWriter text_log x86
                   "dev" "" [] "fffffffffffffffff late" _ _ _ _ _ _)).
  - reflexivity.
  - reflexivity.
  - reflexivity.
  - constructor.
  - reflexivity.
  - apply Exists_cons_hd. vm_compute. reflexivity.
Defined.
